(** * Region latency metrics: a model of [api/latency.py]

    The endpoint answers a request [{"regions": [...], "threshold_ms": n}]
    with per-region latency and uptime aggregates computed over a telemetry
    table loaded once at start-up.

    Conventions of the model.
    - Python floats are idealised as exact rationals ([Q]); NaN and the
      infinities are outside the model (a cell that pandas coerces to NaN is
      a cell without a numeric value). [float] of an integer raises where
      Python's does, from [2^1024 - 2^970] on in absolute value, and is
      exact below.
    - Text is [string]; [str.lower] is modelled on the ASCII letters.
    - A Python [dict] is an insertion-ordered association list with unique
      keys: assigning to an existing key overwrites the value in place.
    - An [HTTPException] raised by the handler and an exception that escapes
      it are both outcomes of type [error]; the latter is [Uncaught]. *)

From Stdlib Require Import ZArith QArith Qround Qabs List String Ascii Bool Lia Permutation Sorted.
From Stdlib Require Import DecimalString Lqa.
Import ListNotations.

Local Open Scope string_scope.
Local Open Scope Z_scope.

(** ** Text *)

Definition lower_ascii (c : ascii) : ascii :=
  let n := nat_of_ascii c in
  if ((65 <=? n) && (n <=? 90))%nat then ascii_of_nat (n + 32) else c.

(** [s.lower()] *)
Fixpoint lower (s : string) : string :=
  match s with
  | EmptyString => EmptyString
  | String c s' => String (lower_ascii c) (lower s')
  end.

(** ** Python dictionaries

    Insertion ordered; [setitem] on a key that is present keeps the key
    object and its position and replaces the value. *)

Section Dict.
Context {K V : Type}.
Variable key_eqb : K -> K -> bool.

Fixpoint dict_get (d : list (K * V)) (k : K) : option V :=
  match d with
  | [] => None
  | (k', v) :: d' => if key_eqb k' k then Some v else dict_get d' k
  end.

Fixpoint dict_set (d : list (K * V)) (k : K) (v : V) : list (K * V) :=
  match d with
  | [] => [(k, v)]
  | (k', v') :: d' =>
      if key_eqb k' k then (k', v) :: d' else (k', v') :: dict_set d' k v
  end.

Definition dict_keys (d : list (K * V)) : list K := map fst d.

(** A key that [key_eqb] identifies with itself only. *)
Definition strict_key (k : K) : Prop :=
  forall k', key_eqb k' k = true <-> k' = k.
End Dict.

(** ** Values *)

(** A decoded JSON document, as [json.loads] returns it; the fields of an
    object are the items of the resulting [dict]. *)
#[local] Set Warnings "-register-all".
Inductive json : Type :=
| JNull
| JBool (b : bool)
| JInt (z : Z)
| JFloat (q : Q)
| JStr (s : string)
| JArr (items : list json)
| JObj (fields : list (string * json)).

(** A cell of the telemetry table. *)
Inductive cell : Type :=
| CNull
| CNum (q : Q)
| CStr (s : string).

(** The telemetry table: a header and positional rows. *)
Record DataFrame : Type := mkDataFrame {
  columns : list string;
  rows : list (list cell)
}.

(** [df.empty]: some axis has length zero. *)
Definition df_empty (df : DataFrame) : bool :=
  match columns df, rows df with
  | [], _ => true
  | _, [] => true
  | _, _ => false
  end.

(** [name in df.columns] *)
Definition has_column (df : DataFrame) (name : string) : bool :=
  existsb (String.eqb name) (columns df).

(** ** [normalize_df] *)

(** [df.rename(columns=rename)] *)
Definition df_rename (df : DataFrame) (rename : list (string * string)) : DataFrame :=
  mkDataFrame
    (map (fun c => match dict_get String.eqb rename c with
                   | Some c' => c'
                   | None => c
                   end) (columns df))
    (rows df).

(** [{c.lower(): c for c in df.columns}] *)
Definition lower_index (cs : list string) : list (string * string) :=
  fold_left (fun d c => dict_set String.eqb d (lower c) c) cs [].

Definition normalize_df (df : DataFrame) : DataFrame :=
  let rename : list (string * string) := [] in
  let cols := lower_index (columns df) in
  let rename :=
    match dict_get String.eqb cols "region" with
    | Some c => dict_set String.eqb rename c "region"
    | None => rename
    end in
  let rename :=
    match dict_get String.eqb cols "latency_ms" with
    | Some c => dict_set String.eqb rename c "latency_ms"
    | None =>
        match dict_get String.eqb cols "latency" with
        | Some c => dict_set String.eqb rename c "latency_ms"
        | None =>
            match dict_get String.eqb cols "ping" with
            | Some c => dict_set String.eqb rename c "latency_ms"
            | None => rename
            end
        end
    end in
  let rename :=
    match dict_get String.eqb cols "uptime" with
    | Some c => dict_set String.eqb rename c "uptime"
    | None =>
        match dict_get String.eqb cols "up" with
        | Some c => dict_set String.eqb rename c "uptime"
        | None => rename
        end
    end in
  df_rename df rename.

(** ** Numbers *)

Local Open Scope Q_scope.

(** [x > y] on floats *)
Definition Qgt_bool (x y : Q) : bool := negb (Qle_bool x y).

Definition Qsum (l : list Q) : Q := fold_right Qplus 0 l.

(** [Series.mean()] of a non-empty series *)
Definition mean (l : list Q) : Q := Qsum l / inject_Z (Z.of_nat (List.length l)).

Fixpoint insert (x : Q) (l : list Q) : list Q :=
  match l with
  | [] => [x]
  | y :: l' => if Qle_bool x y then x :: l else y :: insert x l'
  end.

Fixpoint sort (l : list Q) : list Q :=
  match l with
  | [] => []
  | x :: l' => insert x (sort l')
  end.

(** [np.percentile(a, q)] with the default method: the virtual index
    [(n - 1) * q / 100] in the sorted data, its floor and the next index
    (clipped to the last one), and the linear interpolation between the two
    values there. *)
Definition percentile (a : list Q) (q : Q) : Q :=
  let arr := sort a in
  let n := Z.of_nat (List.length arr) in
  let virtual_index := inject_Z (n - 1) * (q / 100) in
  let previous := Qfloor virtual_index in
  let next := Z.min (previous + 1) (n - 1) in
  let gamma := virtual_index - inject_Z previous in
  let lo := nth (Z.to_nat previous) arr 0 in
  let hi := nth (Z.to_nat next) arr 0 in
  lo + (hi - lo) * gamma.

(** The integer nearest to [y], ties going to the even one. *)
Definition round_half_even (y : Q) : Z :=
  let f := Qfloor y in
  match Qcompare (y - inject_Z f) (1 # 2) with
  | Lt => f
  | Gt => (f + 1)%Z
  | Eq => if Z.even f then f else (f + 1)%Z
  end.

(** [round(x, ndigits)] *)
Definition py_round (x : Q) (ndigits : nat) : Q :=
  let m := inject_Z (10 ^ Z.of_nat ndigits) in
  inject_Z (round_half_even (x * m)) / m.

(** [Series.dropna()] after a coercion in which a failure is a missing value *)
Fixpoint dropna (l : list (option Q)) : list Q :=
  match l with
  | [] => []
  | Some x :: l' => x :: dropna l'
  | None :: l' => dropna l'
  end.

(** ** Outcomes *)

Inductive error : Type :=
| InvalidRequestShape   (* HTTPException 400 *)
| DataUnavailable       (* HTTPException 500, telemetry data not found *)
| SchemaMismatch        (* HTTPException 500, region or latency field missing *)
| Uncaught.             (* an exception the handler does not catch *)

Inductive outcome (A : Type) : Type :=
| Ok (a : A)
| Err (e : error).
Arguments Ok {A} a.
Arguments Err {A} e.

Definition bind {A B : Type} (m : outcome A) (f : A -> outcome B) : outcome B :=
  match m with
  | Ok a => f a
  | Err e => Err e
  end.

Notation "x <- m ;; k" := (bind m (fun x => k))
  (at level 61, m at next level, right associativity).

Definition status_code (e : error) : Z :=
  match e with
  | InvalidRequestShape => 400
  | _ => 500
  end.

(** ** Region metrics *)

Record Metrics : Type := mkMetrics {
  avg_latency : option Q;
  p95_latency : option Q;
  avg_uptime : option Q;
  breaches : Z
}.

Definition null_metrics : Metrics := mkMetrics None None None 0.

(** Positions of the columns labelled [name]. *)
Fixpoint positions (name : string) (cs : list string) (i : nat) : list nat :=
  match cs with
  | [] => []
  | c :: cs' =>
      if String.eqb c name then i :: positions name cs' (S i)
      else positions name cs' (S i)
  end.

(** [df[name]] used as a series: the label must denote one column. A missing
    label raises [KeyError]; a repeated one yields a frame, on which the
    series operations of the handler raise. *)
Definition getitem (df : DataFrame) (name : string) : outcome (list cell) :=
  match positions name (columns df) 0 with
  | [i] => Ok (map (fun row => nth i row CNull) (rows df))
  | _ => Err Uncaught
  end.

(** [df[mask]] *)
Definition df_filter (df : DataFrame) (mask : list bool) : DataFrame :=
  mkDataFrame (columns df) (map fst (filter snd (combine (rows df) mask))).

(** Keys of the output dictionary: lists and dicts are unhashable. *)
Definition hashable (j : json) : bool :=
  match j with
  | JArr _ | JObj _ => false
  | _ => true
  end.

Definition as_number (j : json) : option Q :=
  match j with
  | JBool b => Some (if b then 1 else 0)
  | JInt z => Some (inject_Z z)
  | JFloat q => Some q
  | _ => None
  end.

(** Equality of dictionary keys: [True == 1 == 1.0]. *)
Definition py_key_eqb (a b : json) : bool :=
  match a, b with
  | JNull, JNull => true
  | JStr s, JStr t => String.eqb s t
  | _, _ =>
      match as_number a, as_number b with
      | Some x, Some y => Qeq_bool x y
      | _, _ => false
      end
  end.

(** [isinstance(j, list)] *)
Definition is_list (j : json) : bool :=
  match j with
  | JArr _ => true
  | _ => false
  end.

(** [isinstance(j, (int, float))]; [bool] is a subclass of [int]. *)
Definition is_int_or_float (j : json) : bool :=
  match j with
  | JBool _ | JInt _ | JFloat _ => true
  | _ => false
  end.

(** [float(z)] raises [OverflowError] for an integer that rounds to
    [2^1024], that is from [2^1024 - 2^970] on in absolute value. *)
Definition int_too_large (z : Z) : bool :=
  (2 ^ 1024 - 2 ^ 970 <=? Z.abs z)%Z.

(** The values [float] converts without raising. *)
Definition float_convertible (j : json) : bool :=
  match j with
  | JInt z => negb (int_too_large z)
  | _ => true
  end.

(** [float(threshold)], for the values that pass [is_int_or_float]. *)
Definition py_float (j : json) : outcome Q :=
  match j with
  | JInt z => if int_too_large z then Err Uncaught else Ok (inject_Z z)
  | _ =>
      match as_number j with
      | Some x => Ok x
      | None => Err Uncaught
      end
  end.

(** [payload.get(key)] *)
Definition payload_get (fields : list (string * json)) (key : string) : json :=
  match dict_get String.eqb fields key with
  | Some v => v
  | None => JNull
  end.

(** ** Coercions taken as parameters

    Three conversions of pandas and Python are parameters of the handler's
    model: the number pandas reads in a text cell, the text pandas gives a
    cell that is not text, and the text Python gives a float, a list or a
    dict. The instances below serve the worked examples. *)

Fixpoint digits_value (s : string) (acc : Z) : option Z :=
  match s with
  | EmptyString => Some acc
  | String c s' =>
      let n := Z.of_nat (nat_of_ascii c) in
      if ((48 <=? n) && (n <=? 57))%Z then digits_value s' (10 * acc + (n - 48))%Z
      else None
  end.

(** Reads the unsigned decimal integers and nothing else. *)
Definition digits_only (s : string) : option Q :=
  match s with
  | EmptyString => None
  | _ => option_map inject_Z (digits_value s 0%Z)
  end.

Definition nan_text (c : cell) : string := "nan".

Definition opaque_text (j : json) : string := "<object>".

Section Endpoint.

(** [pd.to_numeric(errors="coerce")] on a text cell *)
Variable parse_text : string -> option Q.
(** [astype(str)] on a cell that is not text *)
Variable repr_cell : cell -> string.
(** [str()] of a float, a list or a dict *)
Variable py_repr : json -> string.

(** [pd.to_numeric(..., errors="coerce")], one cell; [None] is NaN. *)
Definition to_numeric (c : cell) : option Q :=
  match c with
  | CNull => None
  | CNum q => Some q
  | CStr s => parse_text s
  end.

(** [Series.astype(str)], one cell *)
Definition astype_str (c : cell) : string :=
  match c with
  | CStr s => s
  | _ => repr_cell c
  end.

(** [str(region)] *)
Definition py_str (j : json) : string :=
  match j with
  | JStr s => s
  | JNull => "None"
  | JBool true => "True"
  | JBool false => "False"
  | JInt z => NilZero.string_of_int (Z.to_int z)
  | _ => py_repr j
  end.

(** The body of the loop of [latency_endpoint] up to the assignment to
    [out[region]]: the record computed for one requested region. *)
Definition region_metrics (df : DataFrame) (region threshold : json)
  : outcome Metrics :=
  region_col <- getitem df "region" ;;
  let wanted := lower (py_str region) in
  let sub :=
    df_filter df
      (map (fun c => String.eqb (lower (astype_str c)) wanted) region_col) in
  if df_empty sub then Ok null_metrics
  else
    lat_col <- getitem sub "latency_ms" ;;
    let lat := dropna (map to_numeric lat_col) in
    stats <-
      match lat with
      | [] => Ok (None, None, 0%Z)
      | _ =>
          t <- py_float threshold ;;
          Ok (Some (mean lat), Some (percentile lat 95),
              Z.of_nat (List.length (filter (fun x => Qgt_bool x t) lat)))
      end ;;
    let '(avg_latency, p95, breaches) := stats in
    avg_uptime <-
      (if has_column sub "uptime" then
         up_col <- getitem sub "uptime" ;;
         let up := dropna (map to_numeric up_col) in
         let up :=
           if negb (Nat.eqb (List.length up) 0)
              && existsb (fun x => Qgt_bool x 1) up
           then map (fun x => x / 100) up
           else up in
         Ok (match up with
             | [] => None
             | _ => Some (mean up)
             end)
       else Ok None) ;;
    Ok (mkMetrics
          (option_map (fun x => py_round x 3) avg_latency)
          (option_map (fun x => py_round x 3) p95)
          (option_map (fun x => py_round x 6) avg_uptime)
          breaches).

(** [out[region] = m] *)
Definition out_set (out : list (json * Metrics)) (region : json) (m : Metrics)
  : outcome (list (json * Metrics)) :=
  if hashable region then Ok (dict_set py_key_eqb out region m)
  else Err Uncaught.

(** [for region in regions: ...] *)
Fixpoint regions_loop (df : DataFrame) (threshold : json)
         (regions : list json) (out : list (json * Metrics))
  : outcome (list (json * Metrics)) :=
  match regions with
  | [] => Ok out
  | region :: rest =>
      m <- region_metrics df region threshold ;;
      out' <- out_set out region m ;;
      regions_loop df threshold rest out'
  end.

(** The handler. [body] is the decoded request body, [None] when it is not
    JSON; [TELEMETRY_DF] is the table loaded at start-up. *)
Definition latency_endpoint (TELEMETRY_DF : DataFrame) (body : option json)
  : outcome (list (json * Metrics)) :=
  match body with
  | None => Err InvalidRequestShape
  | Some (JObj payload) =>
      let regions := payload_get payload "regions" in
      let threshold := payload_get payload "threshold_ms" in
      match regions with
      | JArr region_list =>
          if negb (is_int_or_float threshold) then Err InvalidRequestShape
          else if df_empty TELEMETRY_DF then Err DataUnavailable
          else
            let df := normalize_df TELEMETRY_DF in
            if negb (has_column df "region") || negb (has_column df "latency_ms")
            then Err SchemaMismatch
            else regions_loop df threshold region_list []
      | _ => Err InvalidRequestShape
      end
  | Some _ => Err Uncaught
  end.

(** *** Reference notions for the statements *)

(** The cell of [row] under the label [name] (the first such column). *)
Definition cell_at (df : DataFrame) (name : string) (row : list cell) : cell :=
  match positions name (columns df) 0 with
  | i :: _ => nth i row CNull
  | [] => CNull
  end.

(** The rows of a region: case-insensitive equality of the texts. *)
Definition region_rows (df : DataFrame) (region : json) : list (list cell) :=
  filter (fun row =>
            String.eqb (lower (astype_str (cell_at df "region" row)))
                       (lower (py_str region)))
         (rows df).

(** The numerically valid samples of a region in the column [name]. *)
Definition samples (df : DataFrame) (name : string) (region : json) : list Q :=
  dropna (map (fun row => to_numeric (cell_at df name row)) (region_rows df region)).

End Endpoint.

(** The mean of a sample, if it has one. *)
Definition mean_of (l : list Q) : option Q :=
  match l with
  | [] => None
  | _ => Some (mean l)
  end.

(** The labels the handler reads each denote one column ([uptime] at most
    one). *)
Definition single_labels (df : DataFrame) : bool :=
  Nat.eqb (List.length (positions "region" (columns df) 0)) 1
  && Nat.eqb (List.length (positions "latency_ms" (columns df) 0)) 1
  && Nat.leb (List.length (positions "uptime" (columns df) 0)) 1.



(** The distinct elements of a list in the order of their first occurrence,
    after those already [seen]. *)
Fixpoint first_occurrences_from (seen l : list string) : list string :=
  match l with
  | [] => []
  | x :: l' =>
      if existsb (String.eqb x) seen then first_occurrences_from seen l'
      else x :: first_occurrences_from (seen ++ [x]) l'
  end.

Definition first_occurrences (l : list string) : list string :=
  first_occurrences_from [] l.

(** The priority table of the aliases of each canonical column. *)
Definition alias_table : list (string * list string) :=
  [("region", ["region"]);
   ("latency_ms", ["latency_ms"; "latency"; "ping"]);
   ("uptime", ["uptime"; "up"])].

(** The column that answers to [alias] regardless of case (the last one). *)
Definition column_named (alias : string) (cs : list string) : option string :=
  find (fun c => String.eqb (lower c) alias) (rev cs).

(** The first alias, in priority order, that some column answers to. *)
Fixpoint resolve (aliases : list string) (cs : list string) : option string :=
  match aliases with
  | [] => None
  | a :: rest =>
      match column_named a cs with
      | Some c => Some c
      | None => resolve rest cs
      end
  end.

(** The name of column [c] after resolution against the priority table. *)
Definition canonical_name (cs : list string) (c : string) : string :=
  match find (fun entry =>
                match resolve (snd entry) cs with
                | Some c' => String.eqb c' c
                | None => false
                end) alias_table with
  | Some entry => fst entry
  | None => c
  end.

Definition is_alias (a : string) : bool :=
  existsb (fun entry => existsb (String.eqb a) (snd entry)) alias_table.

(** ** Worked examples *)

(** The handler with the example coercions. *)
Definition serve : DataFrame -> option json -> outcome (list (json * Metrics)) :=
  latency_endpoint digits_only nan_text opaque_text.

Definition request (regions : list json) (threshold : json) : option json :=
  Some (JObj [("regions", JArr regions); ("threshold_ms", threshold)]).

Definition nyc_table : DataFrame :=
  mkDataFrame ["region"; "latency"]
    [[CStr "nyc1"; CNum 100]; [CStr "nyc1"; CNum 300]; [CStr "nyc1"; CNum 200]].

(** A table with uptimes on both scales and cells that are not numbers. *)
Definition mixed_table : DataFrame :=
  mkDataFrame ["Region"; "ping"; "UP"; "note"]
    [[CStr "US-East"; CNum 120; CNum (995 # 10); CStr "a"];
     [CStr "us-east"; CStr "180"; CNum (1 # 2); CNull];
     [CStr "us-east"; CStr "n/a"; CStr "up"; CNull];
     [CStr "eu-west"; CNull; CNum (99 # 100); CNull];
     [CStr "ap-south"; CNum 90; CNum 250; CNull]].

(** A table without rows. *)
Definition empty_table : DataFrame := mkDataFrame ["region"; "latency_ms"] [].

(** A table without any latency column. *)
Definition uptime_only_table : DataFrame :=
  mkDataFrame ["region"; "uptime"] [[CStr "nyc1"; CNum 1]].

(** A header with two latency aliases and a column of its own. *)
Definition aliased_table : DataFrame :=
  mkDataFrame ["Region"; "latency"; "Ping"; "note"] [].

Definition mixed_names : list string :=
  ["us-east"; "EU-WEST"; "ap-south"; "us-east"; "nowhere"].

Definition mixed_payload : list (string * json) :=
  [("regions", JArr (map JStr mixed_names)); ("threshold_ms", JInt 120)].

Definition boolean_payload : list (string * json) :=
  [("regions", JArr [JStr "us-east"]); ("threshold_ms", JBool true)].

(** A request whose [regions] is a text. *)
Definition text_regions_payload : list (string * json) :=
  [("regions", JStr "us-east"); ("threshold_ms", JInt 180)].



(** The mapping served for [mixed_payload] over [mixed_table]. *)
Definition mixed_out : list (json * Metrics) :=
  Eval vm_compute in
    match serve mixed_table (Some (JObj mixed_payload)) with
    | Ok out => out
    | Err _ => []
    end.

(** ** Loading the table

    The module reads the data file when it is imported: first as
    line-delimited JSON; when that raises [ValueError], as one JSON
    document; when that raises too, the table is [pd.DataFrame()]. The two
    reads are given by their results. *)

Inductive first_read : Type :=
| FirstLoaded (df : DataFrame)
| FirstValueError          (* raises ValueError *)
| FirstOtherError.         (* raises an exception that is not a ValueError *)

(** [pd.DataFrame()] *)
Definition empty_frame : DataFrame := mkDataFrame [] [].

(** The value of [TELEMETRY_DF] after the import, [None] when the import
    itself fails. [second] is the result of [pd.read_json(DATA_PATH)], [None]
    when it raises. *)
Definition load_telemetry (first : first_read) (second : option DataFrame)
  : option DataFrame :=
  match first with
  | FirstLoaded df => Some df
  | FirstValueError =>
      match second with
      | Some df => Some df
      | None => Some empty_frame
      end
  | FirstOtherError => None
  end.

(** ** Further examples *)

(** Two spellings of one region. *)
Definition spellings_payload : list (string * json) :=
  [("regions", JArr (map JStr ["US-East"; "us-east"])); ("threshold_ms", JInt 120)].

Definition spellings_out : list (json * Metrics) :=
  Eval vm_compute in
    match serve mixed_table (Some (JObj spellings_payload)) with
    | Ok out => out
    | Err _ => []
    end.

(** The request of [mixed_payload] with a higher threshold. *)
Definition higher_payload : list (string * json) :=
  [("regions", JArr (map JStr mixed_names)); ("threshold_ms", JFloat (2005 # 10))].

Definition higher_out : list (json * Metrics) :=
  Eval vm_compute in
    match serve mixed_table (Some (JObj higher_payload)) with
    | Ok out => out
    | Err _ => []
    end.

Definition nyc_payload : list (string * json) :=
  [("regions", JArr (map JStr ["nyc1"; "sfo"])); ("threshold_ms", JInt 150)].

Definition nyc_out : list (json * Metrics) :=
  Eval vm_compute in
    match serve nyc_table (Some (JObj nyc_payload)) with
    | Ok out => out
    | Err _ => []
    end.

(** A header in which [Region] is renamed onto an existing [region]. *)
Definition twice_region_table : DataFrame :=
  mkDataFrame ["region"; "Region"; "latency"]
    [[CStr "nyc1"; CStr "NYC1"; CNum 100]].

(** A request with a list among its regions. *)
Definition nested_payload : list (string * json) :=
  [("regions", JArr [JStr "us-east"; JArr [JStr "eu-west"]]);
   ("threshold_ms", JInt 120)].

(** Regions spelled [1] and [true]. *)
Definition keyed_table : DataFrame :=
  mkDataFrame ["region"; "latency_ms"]
    [[CStr "1"; CNum 10]; [CStr "true"; CNum 500]].

(** The number [1] and the boolean [true] are one dictionary key. *)
Definition keyed_payload : list (string * json) :=
  [("regions", JArr [JInt 1; JBool true]); ("threshold_ms", JInt 100)].

Definition keyed_out : list (json * Metrics) :=
  Eval vm_compute in
    match serve keyed_table (Some (JObj keyed_payload)) with
    | Ok out => out
    | Err _ => []
    end.

(** [mixed_table] with its rows in another order and a row of one more
    region. *)
Definition shuffled_table : DataFrame :=
  mkDataFrame ["Region"; "ping"; "UP"; "note"]
    [[CStr "us-east"; CStr "180"; CNum (1 # 2); CNull];
     [CStr "eu-west"; CNull; CNum (99 # 100); CNull];
     [CStr "US-East"; CNum 120; CNum (995 # 10); CStr "a"];
     [CStr "sa-east"; CNum 75; CNull; CNull];
     [CStr "us-east"; CStr "n/a"; CStr "up"; CNull];
     [CStr "ap-south"; CNum 90; CNum 250; CNull]].

Definition shuffled_out : list (json * Metrics) :=
  Eval vm_compute in
    match serve shuffled_table (Some (JObj mixed_payload)) with
    | Ok out => out
    | Err _ => []
    end.

(** ** Numeric cells, in the words of the specification

    A cell is numerically parseable when it holds a number, or a text in
    which the coercion reads a number; an absent cell and any other text
    are not. *)
Inductive numeric_value (parse_text : string -> option Q) : cell -> Q -> Prop :=
| numeric_number (q : Q) : numeric_value parse_text (CNum q) q
| numeric_text (s : string) (q : Q) :
    parse_text s = Some q -> numeric_value parse_text (CStr s) q.


(** Regions stored under several spellings, and latencies that are text. *)
Definition cased_table : DataFrame :=
  mkDataFrame ["Region"; "Latency"; "Uptime"]
    [[CStr "AF-South"; CStr "n/a"; CNum (9 # 10)];
     [CStr "NYC1"; CNum 100; CNull];
     [CStr "af-south"; CStr "-"; CNull];
     [CStr "Nyc1"; CNum 300; CNull];
     [CStr "nyc1"; CNum 200; CNull]].

Definition cased_names : list string := ["af-SOUTH"; "nyc1"; "NYC1"; "nyc2"].

(** A threshold below zero: a latency read as zero would be a breach. *)
Definition cased_payload : list (string * json) :=
  [("regions", JArr (map JStr cased_names)); ("threshold_ms", JInt (-1))].

Definition cased_out : list (json * Metrics) :=
  Eval vm_compute in
    match serve cased_table (Some (JObj cased_payload)) with
    | Ok out => out
    | Err _ => []
    end.



(** An integer threshold beyond the range of a float. *)
Definition huge_payload : list (string * json) :=
  [("regions", JArr (map JStr mixed_names)); ("threshold_ms", JInt (2 ^ 1024))].

(** * Properties *)

(** ** Dictionaries *)

Section DictFacts.
Context {K V : Type}.
Variable key_eqb : K -> K -> bool.

Lemma dict_get_set_same (d : list (K * V)) k v :
  strict_key key_eqb k -> dict_get key_eqb (dict_set key_eqb d k v) k = Some v.
Proof.
  intros Hk. induction d as [|[k' v'] d IH]; simpl.
  - assert (key_eqb k k = true) as -> by now apply Hk. reflexivity.
  - destruct (key_eqb k' k) eqn:E; simpl; rewrite E; auto.
Qed.

Lemma dict_get_set_other (d : list (K * V)) k v k2 :
  strict_key key_eqb k -> strict_key key_eqb k2 -> k <> k2 ->
  dict_get key_eqb (dict_set key_eqb d k v) k2 = dict_get key_eqb d k2.
Proof.
  intros Hk Hk2 Hne. induction d as [|[k' v'] d IH]; simpl.
  - destruct (key_eqb k k2) eqn:E; auto. apply Hk2 in E. contradiction.
  - destruct (key_eqb k' k) eqn:E; simpl.
    + apply Hk in E. subst k'.
      destruct (key_eqb k k2) eqn:E2; auto. apply Hk2 in E2. contradiction.
    + destruct (key_eqb k' k2); auto.
Qed.

Lemma dict_keys_set (d : list (K * V)) k v :
  dict_keys (dict_set key_eqb d k v) =
  if existsb (fun k' => key_eqb k' k) (dict_keys d) then dict_keys d
  else (dict_keys d ++ [k])%list.
Proof.
  unfold dict_keys. induction d as [|[k' v'] d IH]; simpl; auto.
  destruct (key_eqb k' k) eqn:E; simpl; auto.
  rewrite IH. destruct (existsb _ (map fst d)); reflexivity.
Qed.

Lemma dict_get_set_refl (d : list (K * V)) k v :
  key_eqb k k = true -> dict_get key_eqb (dict_set key_eqb d k v) k <> None.
Proof.
  intros Hk. induction d as [|[k' v'] d IH]; simpl.
  - rewrite Hk. discriminate.
  - destruct (key_eqb k' k) eqn:E; simpl; rewrite E; [discriminate|assumption].
Qed.

(** Assignments never remove a key. *)
Lemma dict_get_set_keeps (d : list (K * V)) k v k2 :
  dict_get key_eqb d k2 <> None ->
  dict_get key_eqb (dict_set key_eqb d k v) k2 <> None.
Proof.
  induction d as [|[k' v'] d IH]; simpl; intros H.
  - contradiction.
  - destruct (key_eqb k' k) eqn:E; simpl;
      destruct (key_eqb k' k2) eqn:E2; auto; discriminate.
Qed.
End DictFacts.

Lemma string_strict_key (s : string) : strict_key String.eqb s.
Proof. intros k'. apply String.eqb_eq. Qed.

Lemma string_dict_get_set {V : Type} (d : list (string * V)) k v k2 :
  dict_get String.eqb (dict_set String.eqb d k v) k2 =
  if String.eqb k k2 then Some v else dict_get String.eqb d k2.
Proof.
  destruct (String.eqb k k2) eqn:E.
  - apply String.eqb_eq in E. subst. apply dict_get_set_same, string_strict_key.
  - apply String.eqb_neq in E.
    apply dict_get_set_other; auto using string_strict_key.
Qed.

(** ** The schema normalizer *)

Lemma lower_index_snoc cs c :
  lower_index (cs ++ [c]) = dict_set String.eqb (lower_index cs) (lower c) c.
Proof. unfold lower_index. now rewrite fold_left_app. Qed.

Lemma column_named_snoc a cs c :
  column_named a (cs ++ [c]) =
  if String.eqb (lower c) a then Some c else column_named a cs.
Proof. unfold column_named. now rewrite rev_app_distr. Qed.

(** The dictionary [cols] of [normalize_df] answers with the last column
    whose lower-case form is the key. *)
Lemma lower_index_get cs a :
  dict_get String.eqb (lower_index cs) a = column_named a cs.
Proof.
  induction cs as [|c cs IH] using rev_ind; [reflexivity|].
  rewrite lower_index_snoc, column_named_snoc, string_dict_get_set.
  now rewrite IH.
Qed.

Lemma column_named_lower a cs c : column_named a cs = Some c -> lower c = a.
Proof.
  unfold column_named. intros H. apply find_some in H.
  now apply String.eqb_eq.
Qed.

Lemma column_named_In a cs c : column_named a cs = Some c -> In c cs.
Proof.
  unfold column_named. intros H. apply find_some in H.
  apply in_rev. tauto.
Qed.

Lemma column_named_None a cs c : column_named a cs = None -> In c cs -> lower c <> a.
Proof.
  unfold column_named. intros H Hin E.
  apply in_rev in Hin. pose proof (find_none _ _ H c Hin) as F.
  cbv beta in F. apply String.eqb_neq in F. contradiction.
Qed.

Lemma column_named_exists a cs c :
  In c cs -> lower c = a -> exists c', column_named a cs = Some c'.
Proof.
  intros Hin E. destruct (column_named a cs) eqn:H; eauto.
  exfalso. exact (column_named_None _ _ _ H Hin E).
Qed.

(** Two columns whose lower-case forms differ are different columns. *)
Ltac distinct_columns :=
  match goal with
  | H1 : lower ?x = _, H2 : lower ?y = _ |- context [String.eqb ?x ?y] =>
      replace (String.eqb x y) with false
        by (symmetry; apply String.eqb_neq; intros ->; congruence)
  end.

Lemma normalize_df_columns df :
  columns (normalize_df df) = map (canonical_name (columns df)) (columns df).
Proof.
  unfold normalize_df, df_rename. cbn [columns].
  apply map_ext. intros c.
  unfold canonical_name, alias_table. cbn [find snd fst resolve].
  rewrite !lower_index_get.
  destruct (column_named "region" (columns df)) as [cr|] eqn:Er;
  destruct (column_named "latency_ms" (columns df)) as [c1|] eqn:E1;
  destruct (column_named "latency" (columns df)) as [c2|] eqn:E2;
  destruct (column_named "ping" (columns df)) as [c3|] eqn:E3;
  destruct (column_named "uptime" (columns df)) as [cu|] eqn:Eu;
  destruct (column_named "up" (columns df)) as [cv|] eqn:Ev;
  repeat match goal with
         | H : column_named _ _ = Some _ |- _ => apply column_named_lower in H
         end;
  repeat (cbn [dict_set dict_get]; distinct_columns);
  cbn [dict_set dict_get fst snd];
  repeat match goal with
         | |- context [String.eqb ?x c] => destruct (String.eqb x c)
         end;
  reflexivity.
Qed.

Lemma resolve_lower aliases cs c :
  resolve aliases cs = Some c -> In (lower c) aliases.
Proof.
  induction aliases as [|a rest IH]; simpl; [discriminate|].
  destruct (column_named a cs) eqn:E.
  - intros [= ->]. left. symmetry. eauto using column_named_lower.
  - auto.
Qed.

(** A column that no entry of the table resolves to keeps its name. *)
Lemma canonical_name_unresolved cs c :
  (forall entry, In entry alias_table -> resolve (snd entry) cs <> Some c) ->
  canonical_name cs c = c.
Proof.
  intros H. unfold canonical_name.
  destruct (find _ alias_table) as [entry|] eqn:F; [|reflexivity].
  apply find_some in F. destruct F as [Hin F].
  destruct (resolve (snd entry) cs) as [c'|] eqn:R; [|discriminate].
  apply String.eqb_eq in F. subst c'. now elim (H entry Hin).
Qed.

Lemma canonical_name_latency cs c :
  column_named "latency_ms" cs = None ->
  column_named "latency" cs = Some c ->
  canonical_name cs c = "latency_ms".
Proof.
  intros H1 H2. unfold canonical_name, alias_table. cbn [find snd fst resolve].
  rewrite H1, H2, String.eqb_refl.
  destruct (column_named "region" cs) as [cr|] eqn:Er; [|reflexivity].
  apply column_named_lower in Er, H2.
  replace (String.eqb cr c) with false; [reflexivity|].
  symmetry. apply String.eqb_neq. intros ->. congruence.
Qed.

Lemma canonical_name_ping cs p c :
  lower p = "ping" -> In c cs -> lower c = "latency" ->
  canonical_name cs p = p.
Proof.
  intros Hp Hin Hc. unfold canonical_name, alias_table.
  cbn [find snd fst resolve].
  destruct (column_named_exists _ _ _ Hin Hc) as [c2 E2]. rewrite E2.
  destruct (column_named "region" cs) as [cr|] eqn:Er;
  destruct (column_named "latency_ms" cs) as [c1|] eqn:E1;
  destruct (column_named "uptime" cs) as [cu|] eqn:Eu;
  destruct (column_named "up" cs) as [cv|] eqn:Ev;
  repeat match goal with
         | H : column_named _ _ = Some _ |- _ => apply column_named_lower in H
         end;
  repeat distinct_columns; reflexivity.
Qed.

(** The column an entry of the table resolves to takes the entry's name. *)
Lemma canonical_name_resolved cs entry c :
  In entry alias_table -> resolve (snd entry) cs = Some c ->
  canonical_name cs c = fst entry.
Proof.
  intros He R. pose proof (resolve_lower _ _ _ R) as Hl.
  unfold canonical_name. unfold alias_table in He |- *. simpl in He.
  destruct He as [<-|[<-|[<-|[]]]]; cbn [find snd fst] in *.
  - now rewrite R, String.eqb_refl.
  - rewrite R, String.eqb_refl.
    destruct (resolve ["region"] cs) as [cr|] eqn:Er; [|reflexivity].
    apply resolve_lower in Er. simpl in Er, Hl.
    replace (String.eqb cr c) with false; [reflexivity|].
    symmetry. apply String.eqb_neq. intros ->.
    destruct Er as [Er|[]]. rewrite <- Er in Hl.
    destruct Hl as [Hl|[Hl|[Hl|[]]]]; discriminate.
  - rewrite R, String.eqb_refl.
    destruct (resolve ["region"] cs) as [cr|] eqn:Er;
      destruct (resolve ["latency_ms"; "latency"; "ping"] cs) as [cl|] eqn:El;
      try apply resolve_lower in Er; try apply resolve_lower in El;
      simpl in Er, El, Hl;
      repeat match goal with
             | |- context [String.eqb ?x c] =>
                 replace (String.eqb x c) with false;
                 [|symmetry; apply String.eqb_neq; intros ->;
                   repeat match goal with
                          | H : _ \/ _ |- _ => destruct H
                          | H : False |- _ => destruct H
                          end; congruence]
             end; reflexivity.
Qed.

Lemma nth_error_normalize df i c :
  nth_error (columns df) i = Some c ->
  nth_error (columns (normalize_df df)) i = Some (canonical_name (columns df) c).
Proof.
  intros H. rewrite normalize_df_columns, nth_error_map, H. reflexivity.
Qed.

(** C6. The schema normalizer renames by case-insensitive alias lookup in a
    fixed priority order: the header it produces is the one the priority
    table ([latency_ms] from [latency_ms], else [latency], else [ping];
    [uptime] from [uptime], else [up]) prescribes, the rows are untouched;
    the column that the aliases of a canonical name resolve to, first match
    in that order, takes the canonical name;
    in a table with a [latency] column (and no [latency_ms] column) that
    column becomes [latency_ms] and a [ping] column keeps its name; a column
    that matches no alias keeps its name. *)
Theorem normalize_df_alias_priority (df : DataFrame) :
  rows (normalize_df df) = rows df /\
  columns (normalize_df df) = map (canonical_name (columns df)) (columns df) /\
  (forall entry i c,
      In entry alias_table ->
      nth_error (columns df) i = Some c ->
      resolve (snd entry) (columns df) = Some c ->
      nth_error (columns (normalize_df df)) i = Some (fst entry)) /\
  (forall i c,
      nth_error (columns df) i = Some c ->
      column_named "latency_ms" (columns df) = None ->
      column_named "latency" (columns df) = Some c ->
      nth_error (columns (normalize_df df)) i = Some "latency_ms") /\
  (forall i p c,
      nth_error (columns df) i = Some p -> lower p = "ping" ->
      In c (columns df) -> lower c = "latency" ->
      nth_error (columns (normalize_df df)) i = Some p) /\
  (forall i c,
      nth_error (columns df) i = Some c -> is_alias (lower c) = false ->
      nth_error (columns (normalize_df df)) i = Some c).
Proof.
  split; [reflexivity|]. split; [apply normalize_df_columns|].
  split; [|split; [|split]].
  - intros entry i c He Hi R. rewrite (nth_error_normalize _ _ _ Hi).
    f_equal. now apply canonical_name_resolved.
  - intros i c Hi H1 H2. rewrite (nth_error_normalize _ _ _ Hi).
    f_equal. now apply canonical_name_latency.
  - intros i p c Hi Hp Hin Hc. rewrite (nth_error_normalize _ _ _ Hi).
    f_equal. eauto using canonical_name_ping.
  - intros i c Hi Ha. rewrite (nth_error_normalize _ _ _ Hi).
    f_equal. apply canonical_name_unresolved.
    intros entry He R. apply resolve_lower in R.
    unfold is_alias in Ha.
    assert (existsb (fun entry => existsb (String.eqb (lower c)) (snd entry)) alias_table = true);
      [|congruence].
    apply existsb_exists. exists entry. split; auto.
    apply existsb_exists. exists (lower c). split; auto. apply String.eqb_refl.
Qed.

(** ** One region *)

Lemma filter_by_mask {A : Type} (h : A -> bool) (l : list A) :
  map fst (filter snd (combine l (map h l))) = filter h l.
Proof.
  induction l as [|a l IH]; simpl; auto.
  destruct (h a); simpl; now rewrite IH.
Qed.

Lemma positions_none name cs i :
  existsb (String.eqb name) cs = false -> positions name cs i = [].
Proof.
  revert i. induction cs as [|c cs IH]; simpl; intros i H; auto.
  apply orb_false_iff in H. destruct H as [H1 H2].
  rewrite String.eqb_sym, H1. auto.
Qed.

Lemma positions_some name cs i :
  existsb (String.eqb name) cs = true -> positions name cs i <> [].
Proof.
  revert i. induction cs as [|c cs IH]; simpl; intros i H; [discriminate|].
  rewrite String.eqb_sym. destruct (String.eqb name c); [discriminate|].
  simpl in H. auto.
Qed.

Lemma py_float_cases j :
  (exists x, as_number j = Some x /\ py_float j = Ok x) \/
  py_float j = Err Uncaught.
Proof.
  destruct j as [| b | z | q | s | l | l]; cbn [py_float as_number]; eauto.
  destruct (int_too_large z); eauto.
Qed.

Lemma py_float_Ok j x : py_float j = Ok x -> as_number j = Some x.
Proof.
  destruct (py_float_cases j) as [(y & Hy & ->)| ->]; [|discriminate].
  now intros [= <-].
Qed.

Lemma py_float_returns j :
  is_int_or_float j = true -> float_convertible j = true ->
  exists x, py_float j = Ok x.
Proof.
  destruct j as [| b | z | q | s | l | l];
    cbn [py_float as_number is_int_or_float float_convertible];
    try discriminate; eauto.
  intros _ H. apply negb_true_iff in H. rewrite H. eauto.
Qed.

Section RegionFacts.
Variable parse_text : string -> option Q.
Variable repr_cell : cell -> string.
Variable py_repr : json -> string.

Local Abbreviation metrics_for := (region_metrics parse_text repr_cell py_repr).
Local Abbreviation rows_of := (region_rows repr_cell py_repr).
Local Abbreviation samples_of := (samples parse_text repr_cell py_repr).

Lemma getitem_Ok df name col :
  getitem df name = Ok col -> col = map (cell_at df name) (rows df).
Proof.
  unfold getitem, cell_at.
  destruct (positions name (columns df) 0) as [|i [|j l]]; try discriminate.
  now intros [= <-].
Qed.

Lemma getitem_filter df mask name :
  getitem (df_filter df mask) name =
  match getitem df name with
  | Ok _ => Ok (map (cell_at df name) (rows (df_filter df mask)))
  | Err e => Err e
  end.
Proof.
  unfold getitem, cell_at. cbn [columns df_filter].
  destruct (positions name (columns df) 0) as [|i [|j l]]; reflexivity.
Qed.

(** The sub-frame selected by the handler holds the rows of the region. *)
Lemma sub_rows df region col :
  getitem df "region" = Ok col ->
  rows (df_filter df
          (map (fun c => String.eqb (lower (astype_str repr_cell c))
                                    (lower (py_str py_repr region))) col)) =
  rows_of df region.
Proof.
  intros H. apply getitem_Ok in H. subst col.
  cbn [rows df_filter]. rewrite map_map. apply filter_by_mask.
Qed.

Lemma samples_no_column df name region :
  has_column df name = false -> samples_of df name region = [].
Proof.
  intros H. unfold samples, cell_at.
  unfold has_column in H. rewrite (positions_none _ _ _ H).
  induction (rows_of df region); simpl; auto.
Qed.

(** What a record that [region_metrics] returns holds. *)
Lemma region_metrics_inv df region threshold t m :
  metrics_for df region threshold = Ok m ->
  as_number threshold = Some t ->
  let lat := samples_of df "latency_ms" region in
  let up := samples_of df "uptime" region in
  m = mkMetrics
        (option_map (fun x => py_round x 3) (mean_of lat))
        (option_map (fun x => py_round x 3)
           (match lat with [] => None | _ => Some (percentile lat 95) end))
        (option_map (fun x => py_round x 6)
           (mean_of (if existsb (fun x => Qgt_bool x 1) up
                     then map (fun x => x / 100) up else up)))
        (Z.of_nat (List.length (filter (fun x => Qgt_bool x t) lat))).
Proof.
  intros H Ht. unfold region_metrics in H.
  destruct (getitem df "region") as [col|] eqn:Hcol; [|discriminate].
  cbn [bind] in H.
  pose proof (sub_rows df region col Hcol) as Hsub.
  destruct (df_empty _) eqn:Hemp in H.
  - injection H as <-.
    assert (rows_of df region = []) as Hr.
    { rewrite <- Hsub. unfold df_empty in Hemp.
      cbn [columns df_filter] in Hemp.
      destruct (columns df) eqn:Hc.
      - exfalso. unfold getitem in Hcol. rewrite Hc in Hcol. discriminate.
      - destruct (rows _) in Hemp |- *; [reflexivity|discriminate]. }
    unfold samples. rewrite Hr. reflexivity.
  - rewrite getitem_filter in H.
    destruct (getitem df "latency_ms") as [lcol|] eqn:Hlat; [|discriminate].
    cbn [bind] in H. rewrite Hsub, map_map in H.
    fold (samples_of df "latency_ms" region) in H.
    intros lat up. fold lat in H.
    assert (lat = samples_of df "latency_ms" region) as Elat by reflexivity.
    clearbody lat.
    destruct (py_float_cases threshold) as [(t' & Ht' & Hpf)|Hpf];
      rewrite Hpf in H;
      [rewrite Ht in Ht'; injection Ht' as <-|];
      destruct lat as [|x lat']; cbn [bind] in H; try discriminate H;
      change (has_column (df_filter df ?mask) "uptime")
        with (has_column df "uptime") in H;
      (destruct (has_column df "uptime") eqn:Hu;
       [ rewrite getitem_filter in H;
         destruct (getitem df "uptime"); [|discriminate];
         cbn [bind] in H; rewrite Hsub, map_map in H;
         fold (samples_of df "uptime" region) in H; fold up in H;
         injection H as <-; f_equal; f_equal;
         destruct up; reflexivity
       | cbn [bind] in H; injection H as <-;
         unfold up; rewrite (samples_no_column _ _ _ Hu); reflexivity ]).
Qed.

End RegionFacts.

(** ** The loop over the requested regions *)

Lemma as_number_is_int_or_float j :
  is_int_or_float j = true <-> exists t, as_number j = Some t.
Proof.
  destruct j; simpl; split; intros H; eauto; try discriminate;
    destruct H as [t H]; discriminate.
Qed.

Lemma str_strict_key s : strict_key py_key_eqb (JStr s).
Proof.
  intros k'. destruct k' as [| b | z | q | s' | l | l]; simpl;
    try (split; [discriminate|intros [=]]).
  rewrite String.eqb_eq. split; [now intros ->|now intros [= ->]].
Qed.

Lemma existsb_str_keys x ks :
  existsb (fun k' => py_key_eqb k' (JStr x)) (map JStr ks) =
  existsb (String.eqb x) ks.
Proof.
  induction ks as [|k ks IH]; simpl; auto.
  now rewrite IH, String.eqb_sym.
Qed.

Section LoopFacts.
Variable parse_text : string -> option Q.
Variable repr_cell : cell -> string.
Variable py_repr : json -> string.

Local Abbreviation metrics_for := (region_metrics parse_text repr_cell py_repr).
Local Abbreviation loop := (regions_loop parse_text repr_cell py_repr).
Local Abbreviation endpoint := (latency_endpoint parse_text repr_cell py_repr).

Lemma region_metrics_returns df region threshold :
  single_labels df = true -> is_int_or_float threshold = true ->
  float_convertible threshold = true ->
  exists m, metrics_for df region threshold = Ok m.
Proof.
  intros Hs Ht Hc. destruct (py_float_returns _ Ht Hc) as [t Hpf].
  unfold single_labels in Hs.
  apply andb_true_iff in Hs. destruct Hs as [Hs Hu].
  apply andb_true_iff in Hs. destruct Hs as [Hr Hl].
  unfold region_metrics.
  assert (forall name, Nat.eqb (List.length (positions name (columns df) 0)) 1 = true ->
                       exists col, getitem df name = Ok col) as Hget.
  { intros name H. unfold getitem.
    destruct (positions name (columns df) 0) as [|i [|j l]]; try discriminate; eauto. }
  destruct (Hget _ Hr) as [rcol ->]. cbn [bind].
  destruct (df_empty _); [eauto|].
  rewrite getitem_filter. destruct (Hget _ Hl) as [lcol ->]. cbn [bind].
  rewrite Hpf.
  match goal with
  | |- context [dropna (map (to_numeric parse_text) ?c)] => destruct (dropna (map (to_numeric parse_text) c))
  end; cbn [bind];
    change (has_column (df_filter df ?mask) "uptime") with (has_column df "uptime");
    (destruct (has_column df "uptime") eqn:Hh;
     [ rewrite getitem_filter;
       assert (exists col, getitem df "uptime" = Ok col) as [ucol ->]
         by (apply Hget; unfold has_column in Hh;
             apply (positions_some _ _ 0%nat) in Hh;
             destruct (positions "uptime" (columns df) 0) as [|? [|? ?]];
             [contradiction|reflexivity|discriminate]);
       cbn [bind]; eauto
     | cbn [bind]; eauto ]).
Qed.

Lemma regions_loop_inv df threshold names :
  forall ks out out',
    dict_keys out = map JStr ks ->
    loop df threshold (map JStr names) out = Ok out' ->
    dict_keys out' = map JStr (ks ++ first_occurrences_from ks names) /\
    (forall s, In s names ->
       exists m, metrics_for df (JStr s) threshold = Ok m /\
                 dict_get py_key_eqb out' (JStr s) = Some m) /\
    (forall s, ~ In s names ->
       dict_get py_key_eqb out' (JStr s) = dict_get py_key_eqb out (JStr s)).
Proof.
  induction names as [|x rest IH]; intros ks out out' Hk H.
  - simpl in H. injection H as <-. simpl. rewrite app_nil_r.
    split; [assumption|]. split; [contradiction|reflexivity].
  - cbn [map regions_loop] in H.
    destruct (metrics_for df (JStr x) threshold) as [m|] eqn:Hm; [|discriminate].
    cbn [bind out_set hashable] in H.
    set (out1 := dict_set py_key_eqb out (JStr x) m) in H.
    set (ks1 := if existsb (String.eqb x) ks then ks else (ks ++ [x])%list).
    assert (dict_keys out1 = map JStr ks1) as Hk1.
    { unfold out1, ks1. rewrite dict_keys_set, Hk, existsb_str_keys.
      destruct (existsb (String.eqb x) ks); [reflexivity|].
      now rewrite map_app. }
    destruct (IH ks1 out1 out' Hk1 H) as (Hkeys & Hin & Hout).
    split; [|split].
    + rewrite Hkeys. f_equal. unfold ks1. simpl.
      destruct (existsb (String.eqb x) ks); [reflexivity|].
      now rewrite <- app_assoc.
    + intros s [<-|Hs]; [|auto].
      destruct (in_dec string_dec x rest) as [Hx|Hx]; [auto|].
      exists m. split; [assumption|].
      rewrite (Hout _ Hx). unfold out1.
      apply dict_get_set_same, str_strict_key.
    + intros s Hs. simpl in Hs.
      rewrite Hout by tauto. unfold out1.
      apply dict_get_set_other; auto using str_strict_key.
      intros [= ->]. tauto.
Qed.

Lemma regions_loop_returns df threshold names :
  (forall s, In s names -> exists m, metrics_for df (JStr s) threshold = Ok m) ->
  forall out, exists out', loop df threshold (map JStr names) out = Ok out'.
Proof.
  induction names as [|x rest IH]; intros H out; simpl; [eauto|].
  destruct (H x (or_introl eq_refl)) as [m ->]. cbn [bind].
  apply IH. intros s Hs. apply H. now right.
Qed.

Lemma getitem_error df name e : getitem df name = Err e -> e = Uncaught.
Proof.
  unfold getitem.
  destruct (positions name (columns df) 0) as [|? [|? ?]];
    try discriminate; now intros [= <-].
Qed.

(** A failure while a region is processed is an exception. *)
Lemma region_metrics_error df region threshold e :
  metrics_for df region threshold = Err e -> e = Uncaught.
Proof.
  unfold region_metrics.
  destruct (getitem df "region") eqn:Hr;
    [|cbn [bind]; intros [= <-]; eauto using getitem_error].
  cbn [bind]. destruct (df_empty _); [discriminate|].
  destruct (getitem _ "latency_ms") eqn:Hl;
    [|cbn [bind]; intros [= <-]; eauto using getitem_error].
  cbn [bind].
  destruct (py_float_cases threshold) as [(t' & _ & Hpf)|Hpf]; rewrite Hpf;
    destruct (dropna _); cbn [bind];
    try (now intros [= <-]);
    (destruct (has_column _ "uptime");
     [ destruct (getitem _ "uptime") eqn:Hu;
       [ cbn [bind]; discriminate
       | cbn [bind]; intros [= <-]; eauto using getitem_error ]
     | cbn [bind]; discriminate ]).
Qed.

Lemma regions_loop_error df threshold regions :
  forall out e, loop df threshold regions out = Err e -> e = Uncaught.
Proof.
  induction regions as [|r rest IH]; intros out e; simpl; [discriminate|].
  destruct (metrics_for df r threshold) eqn:Hm; cbn [bind].
  - unfold out_set. destruct (hashable r); cbn [bind]; [apply IH|].
    now intros [= <-].
  - intros [= <-]. eauto using region_metrics_error.
Qed.



Lemma py_key_eqb_refl r : hashable r = true -> py_key_eqb r r = true.
Proof.
  destruct r as [| b | z | q | s | l | l]; simpl; intros H;
    try discriminate; auto using Qeq_bool_refl, String.eqb_refl.
Qed.

(** A loop that completes leaves an entry for every region it ran over. *)
Lemma regions_loop_complete df threshold regions :
  forall out out',
    loop df threshold regions out = Ok out' ->
    (forall r, In r regions -> dict_get py_key_eqb out' r <> None) /\
    (forall k, dict_get py_key_eqb out k <> None ->
               dict_get py_key_eqb out' k <> None).
Proof.
  induction regions as [|r rest IH]; intros out out'; simpl.
  - intros [= <-]. split; [contradiction|auto].
  - destruct (metrics_for df r threshold) as [m|]; [|discriminate].
    cbn [bind]. unfold out_set. destruct (hashable r) eqn:Hh; [|discriminate].
    cbn [bind]. intros H. destruct (IH _ _ H) as [Hin Hkeep].
    split.
    + intros r' [<-|Hr']; [|auto].
      apply Hkeep, dict_get_set_refl, py_key_eqb_refl, Hh.
    + intros k Hk. apply Hkeep. now apply dict_get_set_keeps.
Qed.

(** A call that yields a mapping passed the four checks and ran the loop. *)
Lemma latency_endpoint_Ok df payload out :
  endpoint df (Some (JObj payload)) = Ok out ->
  exists region_list t,
    payload_get payload "regions" = JArr region_list /\
    as_number (payload_get payload "threshold_ms") = Some t /\
    df_empty df = false /\
    has_column (normalize_df df) "region" = true /\
    has_column (normalize_df df) "latency_ms" = true /\
    loop (normalize_df df) (payload_get payload "threshold_ms") region_list [] = Ok out.
Proof.
  unfold latency_endpoint. intros H.
  destruct (payload_get payload "regions") as [| | | | |rs|]; try discriminate.
  destruct (is_int_or_float (payload_get payload "threshold_ms")) eqn:Ht;
    [|discriminate].
  apply as_number_is_int_or_float in Ht. destruct Ht as [t Ht].
  cbn [negb] in H.
  destruct (df_empty df); [discriminate|].
  destruct (has_column (normalize_df df) "region"); [|discriminate].
  destruct (has_column (normalize_df df) "latency_ms"); [|discriminate].
  cbn [negb orb] in H. eauto 10.
Qed.

(** The entry of a requested region in the mapping of a served call. *)
Lemma served_region df payload names out s :
  endpoint df (Some (JObj payload)) = Ok out ->
  payload_get payload "regions" = JArr (map JStr names) ->
  In s names ->
  exists m t,
    as_number (payload_get payload "threshold_ms") = Some t /\
    dict_get py_key_eqb out (JStr s) = Some m /\
    metrics_for (normalize_df df) (JStr s) (payload_get payload "threshold_ms") = Ok m.
Proof.
  intros H Hr Hs.
  destruct (latency_endpoint_Ok _ _ _ H) as (rs & t & Hrs & Ht & _ & _ & _ & Hloop).
  rewrite Hr in Hrs. injection Hrs as <-.
  destruct (regions_loop_inv _ _ _ [] [] out eq_refl Hloop) as (_ & Hin & _).
  destruct (Hin s Hs) as (m & Hm & Hg). eauto 10.
Qed.

(** A request of the right shape over a table with rows whose normalized
    header names each column the handler reads once is served. *)
Lemma latency_endpoint_returns df payload names :
  payload_get payload "regions" = JArr (map JStr names) ->
  is_int_or_float (payload_get payload "threshold_ms") = true ->
  float_convertible (payload_get payload "threshold_ms") = true ->
  df_empty df = false ->
  single_labels (normalize_df df) = true ->
  exists out, endpoint df (Some (JObj payload)) = Ok out.
Proof.
  intros Hr Ht Hf He Hs. unfold latency_endpoint. rewrite Hr, Ht, He.
  cbn [negb].
  assert (forall name,
             Nat.eqb (List.length (positions name (columns (normalize_df df)) 0)) 1 = true ->
             has_column (normalize_df df) name = true) as Hhas.
  { intros name H. unfold has_column.
    destruct (existsb _ _) eqn:E; [reflexivity|].
    rewrite (positions_none _ _ _ E) in H. discriminate. }
  pose proof Hs as Hs'. unfold single_labels in Hs'.
  apply andb_true_iff in Hs'. destruct Hs' as [Hs' _].
  apply andb_true_iff in Hs'. destruct Hs' as [H1 H2].
  rewrite (Hhas _ H1), (Hhas _ H2). cbn [negb orb].
  apply regions_loop_returns. intros s _.
  now apply region_metrics_returns.
Qed.

End LoopFacts.

(** ** Arithmetic *)

Lemma Qgt_bool_iff x y : Qgt_bool x y = true <-> y < x.
Proof.
  unfold Qgt_bool. rewrite negb_true_iff. split; intros H.
  - apply Qnot_le_lt. intros L. apply Qle_bool_iff in L. congruence.
  - destruct (Qle_bool x y) eqn:E; auto.
    apply Qle_bool_iff in E. exfalso. exact (Qlt_not_le _ _ H E).
Qed.

Lemma Qgt_bool_false x y : Qgt_bool x y = false <-> x <= y.
Proof.
  unfold Qgt_bool. rewrite negb_false_iff. apply Qle_bool_iff.
Qed.

Lemma floor_bounds y : inject_Z (Qfloor y) <= y /\ y < inject_Z (Qfloor y) + 1.
Proof.
  split; [apply Qfloor_le|].
  pose proof (Qlt_floor y) as H. now rewrite inject_Z_plus in H.
Qed.


Lemma round_half_even_le y (k : Z) :
  y <= inject_Z k -> (round_half_even y <= k)%Z.
Proof.
  intros H. unfold round_half_even. destruct (floor_bounds y) as [L U].
  assert (Qfloor y <= k)%Z as Hf by (rewrite Zle_Qle; lra).
  assert (0 < y - inject_Z (Qfloor y) -> (Qfloor y + 1 <= k)%Z) as Hs.
  { intros P. assert (Qfloor y < k)%Z by (rewrite Zlt_Qlt; lra). lia. }
  destruct (Qcompare (y - inject_Z (Qfloor y)) (1 # 2)) eqn:C.
  - apply Qeq_alt in C. destruct (Z.even (Qfloor y)); auto. apply Hs. lra.
  - assumption.
  - apply Qgt_alt in C. apply Hs. lra.
Qed.

Lemma round_half_even_ge y (k : Z) :
  inject_Z k <= y -> (k <= round_half_even y)%Z.
Proof.
  intros H. unfold round_half_even.
  assert (k <= Qfloor y)%Z as Hf.
  { rewrite <- (Qfloor_Z k). now apply Qfloor_resp_le. }
  destruct (Qcompare _ _); [destruct (Z.even _)|..]; lia.
Qed.

Lemma round_half_even_comp x y : x == y -> round_half_even x = round_half_even y.
Proof.
  intros E. unfold round_half_even.
  assert (Qfloor x = Qfloor y) as -> by now rewrite E.
  assert (Qcompare (x - inject_Z (Qfloor y)) (1 # 2) =
          Qcompare (y - inject_Z (Qfloor y)) (1 # 2)) as -> by now rewrite E.
  reflexivity.
Qed.

Lemma py_round_comp x y n : x == y -> py_round x n = py_round y n.
Proof.
  intros E. unfold py_round.
  set (m := inject_Z (10 ^ Z.of_nat n)).
  rewrite (round_half_even_comp (x * m) (y * m)); [reflexivity|].
  now rewrite E.
Qed.

Lemma pow10_pos n : 0 < inject_Z (10 ^ Z.of_nat n).
Proof.
  change 0 with (inject_Z 0). rewrite <- Zlt_Qlt. apply Z.pow_pos_nonneg; lia.
Qed.


(** Rounding keeps a fraction within [0, 1]. *)
Lemma py_round_unit x n : 0 <= x <= 1 -> 0 <= py_round x n <= 1.
Proof.
  intros [L U]. pose proof (pow10_pos n) as Hm.
  unfold py_round. set (m := inject_Z (10 ^ Z.of_nat n)) in *.
  assert (0 <= round_half_even (x * m))%Z as H0.
  { apply round_half_even_ge. change (inject_Z 0) with 0. nra. }
  assert (round_half_even (x * m) <= 10 ^ Z.of_nat n)%Z as H1.
  { apply round_half_even_le. fold m. nra. }
  rewrite Zle_Qle in H0, H1. fold m in H1. change (inject_Z 0) with 0 in H0.
  split.
  - apply Qle_shift_div_l; lra.
  - apply Qle_shift_div_r; lra.
Qed.

Lemma length_succ_Q {A : Type} (a : A) (l : list A) :
  inject_Z (Z.of_nat (List.length (a :: l))) ==
  inject_Z (Z.of_nat (List.length l)) + 1.
Proof.
  cbn [List.length]. rewrite Nat2Z.inj_succ, <- Z.add_1_r, inject_Z_plus.
  reflexivity.
Qed.

Lemma length_nonneg_Q {A : Type} (l : list A) :
  0 <= inject_Z (Z.of_nat (List.length l)).
Proof. change 0 with (inject_Z 0). rewrite <- Zle_Qle. lia. Qed.

Lemma Qsum_unit l :
  (forall x, In x l -> 0 <= x <= 1) ->
  0 <= Qsum l <= inject_Z (Z.of_nat (List.length l)).
Proof.
  induction l as [|a l IH]; intros H.
  - split; apply Qle_refl.
  - rewrite length_succ_Q. cbn [Qsum fold_right]. fold (Qsum l).
    pose proof (H a (or_introl eq_refl)).
    assert (0 <= Qsum l <= inject_Z (Z.of_nat (List.length l)))
      by (apply IH; intros; apply H; now right).
    lra.
Qed.

(** The mean of fractions is a fraction. *)
Lemma mean_unit l :
  l <> [] -> (forall x, In x l -> 0 <= x <= 1) -> 0 <= mean l <= 1.
Proof.
  intros Hne H. pose proof (Qsum_unit l H) as [L U].
  assert (0 < inject_Z (Z.of_nat (List.length l))) as Hn.
  { destruct l; [contradiction|]. rewrite length_succ_Q.
    pose proof (length_nonneg_Q l). lra. }
  unfold mean. split.
  - apply Qle_shift_div_l; lra.
  - apply Qle_shift_div_r; lra.
Qed.

(** ** Sorting and the percentile *)

Lemma insert_perm x l : Permutation (x :: l) (insert x l).
Proof.
  induction l as [|y l IH]; simpl; [reflexivity|].
  destruct (Qle_bool x y); [reflexivity|].
  rewrite perm_swap. now apply perm_skip.
Qed.

Lemma sort_perm l : Permutation l (sort l).
Proof.
  induction l as [|x l IH]; simpl; [constructor|].
  rewrite <- insert_perm. now apply perm_skip.
Qed.

Lemma sort_length l : List.length (sort l) = List.length l.
Proof. symmetry. apply Permutation_length, sort_perm. Qed.





(** ** First occurrences *)

Lemma existsb_eqb_In x l : existsb (String.eqb x) l = true <-> In x l.
Proof.
  rewrite existsb_exists. split.
  - intros (y & Hy & E). apply String.eqb_eq in E. now subst.
  - intros H. exists x. split; [assumption|apply String.eqb_refl].
Qed.

Lemma first_occurrences_from_In seen l x :
  In x (first_occurrences_from seen l) <-> In x l /\ ~ In x seen.
Proof.
  revert seen. induction l as [|y l IH]; intros seen; simpl; [tauto|].
  destruct (existsb (String.eqb y) seen) eqn:E.
  - apply existsb_eqb_In in E. rewrite IH.
    split; [tauto|]. intros [[<-|H] Hn]; tauto.
  - assert (~ In y seen) as Hy.
    { intros H. apply existsb_eqb_In in H. congruence. }
    simpl. rewrite IH, in_app_iff. simpl.
    destruct (string_dec y x) as [<-|Hne]; tauto.
Qed.

Lemma first_occurrences_from_NoDup seen l : NoDup (first_occurrences_from seen l).
Proof.
  revert seen. induction l as [|y l IH]; intros seen; simpl; [constructor|].
  destruct (existsb (String.eqb y) seen); [apply IH|].
  constructor; [|apply IH].
  rewrite first_occurrences_from_In, in_app_iff. simpl. tauto.
Qed.

Lemma first_occurrences_from_id seen l :
  NoDup l -> (forall x, In x l -> ~ In x seen) ->
  first_occurrences_from seen l = l.
Proof.
  revert seen. induction l as [|y l IH]; intros seen Hnd Hs; simpl; [reflexivity|].
  inversion Hnd as [|? ? Hy Hl]; subst.
  destruct (existsb (String.eqb y) seen) eqn:E.
  - apply existsb_eqb_In in E. elim (Hs y); simpl; auto.
  - f_equal. apply IH; [assumption|].
    intros x Hx. rewrite in_app_iff. simpl.
    intros [H|[<-|[]]]; [|contradiction].
    apply (Hs x); simpl; auto.
Qed.

(** ** Counting *)




Lemma existsb_above_one up :
  existsb (fun x => Qgt_bool x 1) up = true <-> exists x, In x up /\ 1 < x.
Proof.
  rewrite existsb_exists. split; intros (x & Hx & H); exists x;
    (split; [assumption|now apply Qgt_bool_iff]).
Qed.

Lemma existsb_above_one_false up :
  existsb (fun x => Qgt_bool x 1) up = false <-> forall x, In x up -> x <= 1.
Proof.
  split.
  - intros H x Hx. apply Qgt_bool_false.
    destruct (Qgt_bool x 1) eqn:E; auto.
    assert (existsb (fun x => Qgt_bool x 1) up = true); [|congruence].
    apply existsb_exists. eauto.
  - intros H. destruct (existsb _ up) eqn:E; auto.
    apply existsb_above_one in E. destruct E as (x & Hx & L).
    specialize (H x Hx). lra.
Qed.

(** ** Numeric cells *)

Lemma to_numeric_value parse_text c x :
  to_numeric parse_text c = Some x <-> numeric_value parse_text c x.
Proof.
  split.
  - destruct c as [|q|s]; simpl; intros H; try discriminate.
    + injection H as <-. constructor.
    + now constructor.
  - intros H. destruct H; simpl; auto.
Qed.

Lemma to_numeric_none parse_text c :
  to_numeric parse_text c = None <-> forall x, ~ numeric_value parse_text c x.
Proof.
  split.
  - intros H x Hx. apply to_numeric_value in Hx. congruence.
  - intros H. destruct (to_numeric parse_text c) as [x|] eqn:E; [|reflexivity].
    apply to_numeric_value in E. now elim (H x).
Qed.




Lemma filter_none {A : Type} (f : A -> bool) (l : list A) :
  (forall a, In a l -> f a = false) -> filter f l = [].
Proof.
  induction l as [|a l IH]; simpl; intros H; [reflexivity|].
  rewrite (H a (or_introl eq_refl)). apply IH. intros b Hb. apply H. now right.
Qed.

Lemma dropna_none {A : Type} (f : A -> option Q) (l : list A) :
  (forall a, In a l -> f a = None) -> dropna (map f l) = [].
Proof.
  induction l as [|a l IH]; simpl; intros H; [reflexivity|].
  rewrite (H a (or_introl eq_refl)). apply IH. intros b Hb. apply H. now right.
Qed.

(** ** Claims *)

Section Claims.
Variable parse_text : string -> option Q.
Variable repr_cell : cell -> string.
Variable py_repr : json -> string.

Local Abbreviation metrics_for := (region_metrics parse_text repr_cell py_repr).
Local Abbreviation loop := (regions_loop parse_text repr_cell py_repr).
Local Abbreviation endpoint := (latency_endpoint parse_text repr_cell py_repr).
Local Abbreviation rows_of := (region_rows repr_cell py_repr).
Local Abbreviation samples_of := (samples parse_text repr_cell py_repr).

(** C1, amended. The mapping of a served call has one entry per distinct
    requested region, in the order of first occurrence and keyed by the
    caller's own spelling; a region requested twice has a single entry.
    When no region is requested twice the keys are the requested sequence.
    The value under a key is the record computed for that region. *)
Theorem output_keys_first_occurrences df payload names out :
  endpoint df (Some (JObj payload)) = Ok out ->
  payload_get payload "regions" = JArr (map JStr names) ->
  dict_keys out = map JStr (first_occurrences names) /\
  NoDup (dict_keys out) /\
  (forall s, In s names <-> In (JStr s) (dict_keys out)) /\
  (NoDup names -> dict_keys out = map JStr names) /\
  (forall s, In s names ->
     exists m,
       dict_get py_key_eqb out (JStr s) = Some m /\
       metrics_for (normalize_df df) (JStr s)
         (payload_get payload "threshold_ms") = Ok m).
Proof.
  intros H Hr.
  destruct (latency_endpoint_Ok _ _ _ _ _ _ H)
    as (rs & t & Hrs & Ht & _ & _ & _ & Hloop).
  rewrite Hr in Hrs. injection Hrs as <-.
  destruct (regions_loop_inv _ _ _ _ _ _ [] [] out eq_refl Hloop)
    as (Hkeys & Hin & _).
  cbn [app] in Hkeys. fold (first_occurrences names) in Hkeys.
  assert (forall s, In (JStr s) (map JStr (first_occurrences names)) <->
                    In s (first_occurrences names)) as Hmap.
  { intros s. rewrite in_map_iff. split.
    - now intros (s' & [= ->] & Hs).
    - intros Hs. now exists s. }
  split; [assumption|]. rewrite Hkeys. split; [|split; [|split]].
  - apply Finite.Injective_map_NoDup; [now intros a b [=]|].
    apply first_occurrences_from_NoDup.
  - intros s. rewrite Hmap. unfold first_occurrences.
    rewrite first_occurrences_from_In. simpl. tauto.
  - intros Hnd. f_equal. now apply first_occurrences_from_id.
  - intros s Hs. destruct (Hin s Hs) as (m & Hm & Hg). eauto.
Qed.

(** The record of a requested region in the mapping of a served call, in
    terms of the samples of the region. *)
Lemma served_record df payload names out s :
  endpoint df (Some (JObj payload)) = Ok out ->
  payload_get payload "regions" = JArr (map JStr names) ->
  In s names ->
  exists m t,
    as_number (payload_get payload "threshold_ms") = Some t /\
    dict_get py_key_eqb out (JStr s) = Some m /\
    let lat := samples_of (normalize_df df) "latency_ms" (JStr s) in
    let up := samples_of (normalize_df df) "uptime" (JStr s) in
    m = mkMetrics
          (option_map (fun x => py_round x 3) (mean_of lat))
          (option_map (fun x => py_round x 3)
             (match lat with [] => None | _ => Some (percentile lat 95) end))
          (option_map (fun x => py_round x 6)
             (mean_of (if existsb (fun x => Qgt_bool x 1) up
                       then map (fun x => x / 100) up else up)))
          (Z.of_nat (List.length (filter (fun x => Qgt_bool x t) lat))).
Proof.
  intros H Hr Hs.
  destruct (served_region _ _ _ _ _ _ _ _ H Hr Hs) as (m & t & Ht & Hg & Hm).
  exists m, t. split; [assumption|]. split; [assumption|].
  exact (region_metrics_inv _ _ _ _ _ _ _ _ Hm Ht).
Qed.


(** C5. In the mapping of a served call a requested region that no row of
    the table matches, comparing the texts regardless of case, has the
    record [{None, None, None, 0}]; a region none of whose rows has a
    numeric latency (absent, or a text that is not a number) has no
    [avg_latency], no [p95_latency] and zero [breaches]. *)
Theorem no_rows_null_record df payload names out s :
  endpoint df (Some (JObj payload)) = Ok out ->
  payload_get payload "regions" = JArr (map JStr names) ->
  In s names ->
  exists m,
    dict_get py_key_eqb out (JStr s) = Some m /\
    let df' := normalize_df df in
    ((forall row, In row (rows df') ->
        lower (astype_str repr_cell (cell_at df' "region" row)) <> lower s) ->
     m = null_metrics) /\
    ((forall row x, In row (rows df') ->
        lower (astype_str repr_cell (cell_at df' "region" row)) = lower s ->
        ~ numeric_value parse_text (cell_at df' "latency_ms" row) x) ->
     avg_latency m = None /\ p95_latency m = None /\ breaches m = 0%Z).
Proof.
  intros H Hr Hs.
  destruct (served_record _ _ _ _ _ H Hr Hs) as (m & t & Ht & Hg & Hm).
  exists m. split; [assumption|]. cbv zeta in Hm |- *. split.
  - intros Hno. rewrite Hm. unfold samples, region_rows.
    rewrite filter_none; [reflexivity|].
    intros row Hrow. apply String.eqb_neq. now apply Hno.
  - intros Hno.
    assert (samples_of (normalize_df df) "latency_ms" (JStr s) = []) as Hlat.
    { unfold samples. apply dropna_none. intros row Hrow.
      unfold region_rows in Hrow. apply filter_In in Hrow.
      destruct Hrow as [Hin Hl]. apply String.eqb_eq in Hl.
      apply to_numeric_none. intros x. now apply Hno. }
    rewrite Hm, Hlat. cbn. auto.
Qed.

(** C4. Uptime rescaling is one decision per region: when some numeric
    uptime sample of the region exceeds 1, the mean is taken over all the
    samples divided by 100; when there are samples and none exceeds 1, it
    is taken over the samples as they are. *)
Theorem uptime_rescaling_all_or_nothing df payload names out s :
  endpoint df (Some (JObj payload)) = Ok out ->
  payload_get payload "regions" = JArr (map JStr names) ->
  In s names ->
  exists m,
    dict_get py_key_eqb out (JStr s) = Some m /\
    let up := samples_of (normalize_df df) "uptime" (JStr s) in
    ((exists x, In x up /\ 1 < x) ->
     avg_uptime m = Some (py_round (mean (map (fun x => x / 100) up)) 6)) /\
    (up <> [] -> (forall x, In x up -> x <= 1) ->
     avg_uptime m = Some (py_round (mean up) 6)) /\
    (up = [] -> avg_uptime m = None).
Proof.
  intros H Hr Hs.
  destruct (served_record _ _ _ _ _ H Hr Hs) as (m & t & Ht & Hg & Hm).
  exists m. split; [assumption|]. cbv zeta in Hm |- *.
  rewrite Hm. cbn [avg_uptime].
  set (up := samples_of (normalize_df df) "uptime" (JStr s)).
  split; [|split].
  - intros Hx. pose proof Hx as (x & Hin & _).
    apply existsb_above_one in Hx. rewrite Hx.
    destruct up; [contradiction|reflexivity].
  - intros Hne Hall. apply existsb_above_one_false in Hall. rewrite Hall.
    destruct up; [contradiction|reflexivity].
  - intros ->. reflexivity.
Qed.

(** C2, amended. When every numeric uptime sample of a requested region
    lies between 0 and 100, the [avg_uptime] of the region in the mapping
    of a served call, if any, lies between 0 and 1. *)
Theorem avg_uptime_fraction df payload names out s :
  endpoint df (Some (JObj payload)) = Ok out ->
  payload_get payload "regions" = JArr (map JStr names) ->
  In s names ->
  (forall x, In x (samples_of (normalize_df df) "uptime" (JStr s)) ->
             0 <= x <= 100) ->
  exists m,
    dict_get py_key_eqb out (JStr s) = Some m /\
    forall u, avg_uptime m = Some u -> 0 <= u <= 1.
Proof.
  intros H Hr Hs Hrange.
  destruct (served_record _ _ _ _ _ H Hr Hs) as (m & t & Ht & Hg & Hm).
  exists m. split; [assumption|]. cbv zeta in Hm.
  rewrite Hm. cbn [avg_uptime].
  set (up := samples_of (normalize_df df) "uptime" (JStr s)) in *.
  intros u Hu.
  destruct (existsb (fun x => Qgt_bool x 1) up) eqn:E.
  - destruct up as [|u0 up'] eqn:Eup; [discriminate|].
    rewrite <- Eup in *. 
    assert (map (fun x => x / 100) up <> []) as Hne by (rewrite Eup; discriminate).
    destruct (map (fun x => x / 100) up) as [|v l] eqn:Emap; [contradiction|].
    cbn in Hu. injection Hu as <-. rewrite <- Emap.
    apply py_round_unit, mean_unit; [now rewrite Emap|].
    intros y Hy. apply in_map_iff in Hy. destruct Hy as (x & <- & Hx).
    specialize (Hrange x Hx).
    split; [apply Qle_shift_div_l|apply Qle_shift_div_r]; lra.
  - destruct up as [|u0 up'] eqn:Eup; [discriminate|].
    rewrite <- Eup in *. rewrite Eup in Hu at 1.
    cbn in Hu. injection Hu as <-. rewrite <- Eup.
    apply py_round_unit, mean_unit; [rewrite Eup; discriminate|].
    intros x Hx. pose proof (proj1 (existsb_above_one_false up) E x Hx).
    specialize (Hrange x Hx). lra.
Qed.


(** C8, amended. With a table without rows no call yields a mapping: a
    request object of the right shape fails with [DataUnavailable], while a
    request object of the wrong shape, or a body that is not JSON, fails
    with [InvalidRequestShape] first. A table that has rows but, once
    normalized, no [region] or no [latency_ms] column fails every request
    of the right shape with [SchemaMismatch], whatever the regions. A call
    that yields a mapping yields an entry for every requested region. *)
Theorem table_errors_abort_call :
  (forall df body, rows df = [] -> exists e, endpoint df body = Err e) /\
  (forall df payload region_list,
      rows df = [] ->
      payload_get payload "regions" = JArr region_list ->
      is_int_or_float (payload_get payload "threshold_ms") = true ->
      endpoint df (Some (JObj payload)) = Err DataUnavailable) /\
  (forall df payload region_list,
      df_empty df = false ->
      has_column (normalize_df df) "region" = false \/
      has_column (normalize_df df) "latency_ms" = false ->
      payload_get payload "regions" = JArr region_list ->
      is_int_or_float (payload_get payload "threshold_ms") = true ->
      endpoint df (Some (JObj payload)) = Err SchemaMismatch) /\
  (forall df body out,
      endpoint df body = Ok out ->
      exists payload region_list,
        body = Some (JObj payload) /\
        payload_get payload "regions" = JArr region_list /\
        forall r, In r region_list -> dict_get py_key_eqb out r <> None) /\
  (forall df payload,
      rows df = [] ->
      (forall l, payload_get payload "regions" <> JArr l) \/
      ((forall z, payload_get payload "threshold_ms" <> JInt z) /\
       (forall q, payload_get payload "threshold_ms" <> JFloat q) /\
       (forall b, payload_get payload "threshold_ms" <> JBool b)) ->
      endpoint df (Some (JObj payload)) = Err InvalidRequestShape) /\
  (forall df, rows df = [] -> endpoint df None = Err InvalidRequestShape).
Proof.
  assert (forall df, rows df = [] -> df_empty df = true) as Hempty.
  { intros df H. unfold df_empty. rewrite H. now destruct (columns df). }
  split; [|split; [|split; [|split; [|split]]]].
  - intros df body H. apply Hempty in H. unfold latency_endpoint.
    destruct body as [[| | | | | |payload]|]; eauto.
    destruct (payload_get payload "regions"); eauto.
    destruct (is_int_or_float _); cbn [negb]; eauto.
    rewrite H. eauto.
  - intros df payload rs H Hr Ht. apply Hempty in H.
    unfold latency_endpoint. now rewrite Hr, Ht, H.
  - intros df payload rs He Hs Hr Ht.
    unfold latency_endpoint. rewrite Hr, Ht, He. cbn [negb].
    destruct Hs as [-> | ->]; cbn [negb orb]; [reflexivity|].
    now rewrite orb_true_r.
  - intros df body out H.
    destruct body as [[| | | | | |payload]|]; try discriminate.
    destruct (latency_endpoint_Ok _ _ _ _ _ _ H)
      as (rs & t & Hrs & _ & _ & _ & _ & Hloop).
    exists payload, rs. split; [reflexivity|]. split; [assumption|].
    exact (proj1 (regions_loop_complete _ _ _ _ _ _ _ _ Hloop)).
  - intros df payload _ H. unfold latency_endpoint.
    destruct (payload_get payload "regions") as [| | | | |rs|] eqn:Hr;
      try reflexivity.
    destruct H as [H|(Hz & Hq & Hb)]; [now elim (H rs)|].
    destruct (payload_get payload "threshold_ms") as [|b|z|q| | |];
      try reflexivity.
    + now elim (Hb b).
    + now elim (Hz z).
    + now elim (Hq q).
  - reflexivity.
Qed.

(** C9, amended. A request whose [regions] is not a list, or whose
    [threshold_ms] is neither an integer, a float nor a boolean, fails
    with [InvalidRequestShape], whatever the table; so does the threshold
    given as the text "180". *)
Theorem malformed_request_rejected :
  (forall df payload,
      (forall l, payload_get payload "regions" <> JArr l) \/
      ((forall z, payload_get payload "threshold_ms" <> JInt z) /\
       (forall q, payload_get payload "threshold_ms" <> JFloat q) /\
       (forall b, payload_get payload "threshold_ms" <> JBool b)) ->
      endpoint df (Some (JObj payload)) = Err InvalidRequestShape) /\
  (forall df region_list,
      endpoint df (request region_list (JStr "180")) = Err InvalidRequestShape).
Proof.
  split.
  - intros df payload H. unfold latency_endpoint.
    destruct (payload_get payload "regions") as [| | | | |rs|] eqn:Hr;
      try reflexivity.
    destruct H as [H|(Hz & Hq & Hb)]; [now elim (H rs)|].
    destruct (payload_get payload "threshold_ms") as [|b|z|q| | |];
      try reflexivity.
    + now elim (Hb b).
    + now elim (Hz z).
    + now elim (Hq q).
  - intros df rs. reflexivity.
Qed.


End Claims.

(** ** Worked instances *)

Lemma mixed_served : serve mixed_table (Some (JObj mixed_payload)) = Ok mixed_out.
Proof. vm_compute. reflexivity. Qed.

(** C1 fails as stated: a region requested twice has one entry. *)
Lemma duplicate_regions_one_entry :
  exists out,
    serve nyc_table (request [JStr "nyc1"; JStr "nyc1"] (JInt 150)) = Ok out /\
    dict_keys out = [JStr "nyc1"] /\
    dict_keys out <> [JStr "nyc1"; JStr "nyc1"].
Proof.
  eexists. split; [reflexivity|]. split; [reflexivity|discriminate].
Qed.

Lemma output_keys_first_occurrences_witness :
  serve mixed_table (Some (JObj mixed_payload)) = Ok mixed_out /\
  dict_keys mixed_out =
    [JStr "us-east"; JStr "EU-WEST"; JStr "ap-south"; JStr "nowhere"].
Proof.
  split; [vm_compute; reflexivity|].
  destruct (output_keys_first_occurrences digits_only nan_text opaque_text
              mixed_table mixed_payload mixed_names mixed_out) as [H _].
  - vm_compute. reflexivity.
  - reflexivity.
  - exact H.
Defined.


Lemma no_rows_null_record_witness :
  serve cased_table (Some (JObj cased_payload)) = Ok cased_out /\
  dict_get py_key_eqb cased_out (JStr "nyc2") = Some null_metrics /\
  exists m,
    dict_get py_key_eqb cased_out (JStr "af-SOUTH") = Some m /\
    avg_latency m = None /\ p95_latency m = None /\ breaches m = 0%Z /\
    option_map Qred (avg_uptime m) = Some (9 # 10).
Proof.
  split; [vm_compute; reflexivity|]. split.
  - destruct (no_rows_null_record digits_only nan_text opaque_text
                cased_table cased_payload cased_names cased_out "nyc2")
      as (m & Hg & Hnull & _).
    + vm_compute. reflexivity.
    + reflexivity.
    + simpl. auto.
    + rewrite Hg. f_equal. apply Hnull.
      intros row Hrow. simpl in Hrow.
      destruct Hrow as [<-|[<-|[<-|[<-|[<-|[]]]]]]; vm_compute; discriminate.
  - destruct (no_rows_null_record digits_only nan_text opaque_text
                cased_table cased_payload cased_names cased_out "af-SOUTH")
      as (m & Hg & _ & Hlat).
    + vm_compute. reflexivity.
    + reflexivity.
    + simpl. auto.
    + exists m. split; [exact Hg|].
      cbv zeta in Hlat.
      destruct Hlat as (Ha & Hp & Hb).
      { intros row x Hrow Hl Hx. simpl in Hrow.
        destruct Hrow as [<-|[<-|[<-|[<-|[<-|[]]]]]];
          try (vm_compute in Hl; discriminate Hl);
          inversion Hx as [|s q Hparse]; discriminate Hparse. }
      repeat (split; [assumption|]).
      vm_compute in Hg. injection Hg as <-. reflexivity.
Defined.

Lemma uptime_rescaling_all_or_nothing_witness :
  serve mixed_table (Some (JObj mixed_payload)) = Ok mixed_out /\
  samples digits_only nan_text opaque_text (normalize_df mixed_table)
    "uptime" (JStr "us-east") = [995 # 10; 1 # 2] /\
  (exists m,
      dict_get py_key_eqb mixed_out (JStr "us-east") = Some m /\
      option_map Qred (avg_uptime m) = Some (1 # 2)) /\
  (exists m,
      dict_get py_key_eqb mixed_out (JStr "EU-WEST") = Some m /\
      option_map Qred (avg_uptime m) = Some (99 # 100)).
Proof.
  split; [vm_compute; reflexivity|]. split; [vm_compute; reflexivity|]. split.
  - destruct (uptime_rescaling_all_or_nothing digits_only nan_text opaque_text
                mixed_table mixed_payload mixed_names mixed_out "us-east")
      as (m & Hg & Hscaled & _).
    + vm_compute. reflexivity.
    + reflexivity.
    + simpl. auto.
    + exists m. split; [exact Hg|]. cbv zeta in Hscaled. rewrite Hscaled.
      * vm_compute. reflexivity.
      * exists (995 # 10). split; [vm_compute; auto|reflexivity].
  - destruct (uptime_rescaling_all_or_nothing digits_only nan_text opaque_text
                mixed_table mixed_payload mixed_names mixed_out "EU-WEST")
      as (m & Hg & _ & Hplain & _).
    + vm_compute. reflexivity.
    + reflexivity.
    + simpl. auto.
    + exists m. split; [exact Hg|]. cbv zeta in Hplain. rewrite Hplain.
      * vm_compute. reflexivity.
      * vm_compute. discriminate.
      * intros x Hx. vm_compute in Hx. destruct Hx as [<-|[]].
        vm_compute. discriminate.
Defined.

(** C2 fails as stated: a sample of 250 yields an average of 2.5. *)
Lemma avg_uptime_above_one :
  serve mixed_table (Some (JObj mixed_payload)) = Ok mixed_out /\
  samples digits_only nan_text opaque_text (normalize_df mixed_table)
    "uptime" (JStr "ap-south") = [250] /\
  exists m u,
    dict_get py_key_eqb mixed_out (JStr "ap-south") = Some m /\
    avg_uptime m = Some u /\ u == 5 # 2 /\ ~ (0 <= u <= 1).
Proof.
  split; [vm_compute; reflexivity|]. split; [vm_compute; reflexivity|].
  eexists. eexists. split; [reflexivity|]. split; [reflexivity|].
  split; [reflexivity|]. intros [_ H]. vm_compute in H. now apply H.
Qed.

Lemma avg_uptime_fraction_witness :
  serve mixed_table (Some (JObj mixed_payload)) = Ok mixed_out /\
  exists m,
    dict_get py_key_eqb mixed_out (JStr "us-east") = Some m /\
    forall u, avg_uptime m = Some u -> 0 <= u <= 1.
Proof.
  split; [vm_compute; reflexivity|].
  apply (avg_uptime_fraction digits_only nan_text opaque_text
           mixed_table mixed_payload mixed_names mixed_out "us-east").
  - vm_compute. reflexivity.
  - reflexivity.
  - simpl. auto.
  - intros x Hx. vm_compute in Hx.
    destruct Hx as [<-|[<-|[]]]; split; vm_compute; discriminate.
Defined.

Lemma normalize_df_alias_priority_witness :
  columns (normalize_df aliased_table) = ["region"; "latency_ms"; "Ping"; "note"] /\
  nth_error (columns (normalize_df aliased_table)) 1 = Some "latency_ms" /\
  nth_error (columns (normalize_df aliased_table)) 2 = Some "Ping" /\
  nth_error (columns (normalize_df aliased_table)) 3 = Some "note".
Proof.
  destruct (normalize_df_alias_priority aliased_table)
    as (_ & _ & _ & Hlatency & Hping & Hother).
  split; [reflexivity|]. split; [|split].
  - apply (Hlatency 1%nat "latency"); reflexivity.
  - apply (Hping 2%nat "Ping" "latency"); [reflexivity|reflexivity| |reflexivity].
    simpl. auto.
  - apply (Hother 3%nat "note"); reflexivity.
Defined.


(** C8 fails as stated: over a table without rows a request without
    [regions] fails on its shape, not with [DataUnavailable]. *)
Lemma empty_table_malformed_request :
  rows empty_table = [] /\
  serve empty_table (Some (JObj [])) = Err InvalidRequestShape /\
  serve empty_table (Some (JObj [])) <> Err DataUnavailable.
Proof.
  split; [reflexivity|]. split; [reflexivity|discriminate].
Qed.

Lemma table_errors_abort_call_witness :
  serve empty_table (Some (JObj mixed_payload)) = Err DataUnavailable /\
  serve uptime_only_table (Some (JObj mixed_payload)) = Err SchemaMismatch /\
  dict_get py_key_eqb mixed_out (JStr "nowhere") <> None /\
  serve empty_table (Some (JObj text_regions_payload)) = Err InvalidRequestShape.
Proof.
  destruct (table_errors_abort_call digits_only nan_text opaque_text)
    as (_ & Hdata & Hschema & Hcomplete & Hshape & _).
  split; [|split; [|split]].
  - apply (Hdata empty_table mixed_payload (map JStr mixed_names));
      reflexivity.
  - apply (Hschema uptime_only_table mixed_payload (map JStr mixed_names));
      try reflexivity.
    right. reflexivity.
  - destruct (Hcomplete mixed_table (Some (JObj mixed_payload)) mixed_out)
      as (payload & region_list & Hbody & Hregions & Hall).
    + vm_compute. reflexivity.
    + injection Hbody as <-. apply Hall.
      vm_compute in Hregions. injection Hregions as <-. simpl. auto 10.
  - apply (Hshape empty_table text_regions_payload); [reflexivity|].
    left. discriminate.
Defined.

(** C9 fails as stated: a boolean is not a number, and the call is served. *)
Lemma boolean_threshold_not_rejected :
  payload_get boolean_payload "threshold_ms" = JBool true /\
  (forall z, JBool true <> JInt z) /\
  (forall q, JBool true <> JFloat q) /\
  (exists out, serve mixed_table (Some (JObj boolean_payload)) = Ok out) /\
  serve mixed_table (Some (JObj boolean_payload)) <> Err InvalidRequestShape.
Proof.
  split; [reflexivity|]. split; [discriminate|]. split; [discriminate|].
  split; [eexists; reflexivity|discriminate].
Qed.

Lemma malformed_request_rejected_witness :
  (forall l, payload_get text_regions_payload "regions" <> JArr l) /\
  serve mixed_table (Some (JObj text_regions_payload)) = Err InvalidRequestShape.
Proof.
  split; [discriminate|].
  destruct (malformed_request_rejected digits_only nan_text opaque_text)
    as (H & _).
  apply (H mixed_table text_regions_payload).
  left. discriminate.
Defined.


(** * Further properties of the code *)

(** ** The normalizer *)

Lemma normalize_df_eq df :
  normalize_df df =
  mkDataFrame (map (canonical_name (columns df)) (columns df)) (rows df).
Proof.
  pose proof (normalize_df_columns df) as H.
  unfold normalize_df, df_rename in *. cbn [columns] in H. now rewrite H.
Qed.

Lemma find_map {A B : Type} (f : A -> B) (P : B -> bool) (l : list A) :
  find P (map f l) = option_map f (find (fun x => P (f x)) l).
Proof.
  induction l as [|a l IH]; simpl; auto. destruct (P (f a)); auto.
Qed.

(** Two searches of one list that each accept what the other finds find
    the same element. *)
Lemma find_agree {A : Type} (P R : A -> bool) (l : list A) x y :
  find P l = Some x -> find R l = Some y ->
  R x = true -> P y = true -> x = y.
Proof.
  induction l as [|a l IH]; simpl; [discriminate|].
  destruct (P a) eqn:Pa, (R a) eqn:Ra; intros Hx Hy Rx Py.
  - congruence.
  - injection Hx as <-. congruence.
  - injection Hy as <-. congruence.
  - auto.
Qed.

Lemma canonical_name_cases cs c :
  canonical_name cs c = c \/
  exists entry, In entry alias_table /\ resolve (snd entry) cs = Some c /\
                canonical_name cs c = fst entry.
Proof.
  unfold canonical_name.
  destruct (find _ alias_table) as [entry|] eqn:F; [|now left].
  right. apply find_some in F. destruct F as [Hin F].
  destruct (resolve (snd entry) cs) as [c'|] eqn:R; [|discriminate].
  apply String.eqb_eq in F. subst c'. eauto.
Qed.

Lemma resolve_In aliases cs c : resolve aliases cs = Some c -> In c cs.
Proof.
  induction aliases as [|a rest IH]; simpl; [discriminate|].
  destruct (column_named a cs) eqn:E; [|assumption].
  intros [= ->]. eauto using column_named_In.
Qed.

Lemma resolve_exists aliases cs c :
  In c cs -> In (lower c) aliases -> exists c', resolve aliases cs = Some c'.
Proof.
  intros Hc. induction aliases as [|a rest IH]; simpl; [contradiction|].
  intros [Ha|Hr].
  - destruct (column_named_exists a cs c Hc (eq_sym Ha)) as [c' ->]. eauto.
  - destruct (column_named a cs); eauto.
Qed.

(** The canonical names are in lower case, and no two entries share one. *)
Lemma alias_table_names entry :
  In entry alias_table ->
  lower (fst entry) = fst entry /\
  (exists rest, snd entry = fst entry :: rest) /\
  (forall entry', In entry' alias_table ->
                  In (fst entry) (snd entry') -> entry' = entry).
Proof.
  unfold alias_table. simpl.
  intros [<-|[<-|[<-|[]]]]; (split; [reflexivity|]); (split; [simpl; eauto|]);
    intros entry' [<-|[<-|[<-|[]]]]; simpl; intros H;
    repeat (destruct H as [H|H]; try discriminate H); try reflexivity;
    contradiction.
Qed.

Lemma resolve_alias aliases cs c :
  resolve aliases cs = Some c ->
  exists a, In a aliases /\ column_named a cs = Some c.
Proof.
  induction aliases as [|a rest IH]; simpl; [discriminate|].
  destruct (column_named a cs) eqn:E.
  - intros [= ->]. eauto.
  - intros H. destruct (IH H) as (a' & Ha & Hc). eauto.
Qed.

Lemma column_named_map a (cs : list string) (g : string -> string) :
  column_named a (map g cs) =
  option_map g (find (fun x => String.eqb (lower (g x)) a) (rev cs)).
Proof. unfold column_named. now rewrite <- map_rev, find_map. Qed.

(** In a normalized header the column that answers to a canonical name is
    spelled as that name. *)
Lemma normalized_canonical_column cs entry c' :
  In entry alias_table ->
  column_named (fst entry) (map (canonical_name cs) cs) = Some c' ->
  c' = fst entry.
Proof.
  intros He H. destruct (alias_table_names entry He) as (Hlow & [rest Hsnd] & Huniq).
  rewrite column_named_map in H.
  destruct (find _ (rev cs)) as [x|] eqn:F; [|discriminate].
  injection H as <-. pose proof (find_some _ _ F) as [Hx Px].
  apply String.eqb_eq in Px.
  destruct (canonical_name_cases cs x) as [Hsame|(e2 & He2 & R2 & Hren)].
  - rewrite Hsame in Px.
    apply in_rev in Hx.
    destruct (column_named_exists _ _ _ Hx Px) as [c0 Hc0].
    assert (canonical_name cs c0 = fst entry) as Hg.
    { apply canonical_name_resolved; [assumption|].
      rewrite Hsnd. simpl. now rewrite Hc0. }
    assert (c0 = x) as <-; [|assumption].
    unfold column_named in Hc0.
    apply (find_agree _ _ _ _ _ Hc0 F).
    + rewrite Hg, Hlow. apply String.eqb_refl.
    + now apply String.eqb_eq.
  - rewrite Hren in Px |- *.
    destruct (alias_table_names e2 He2) as (Hlow2 & _ & _). congruence.
Qed.

Lemma normalized_resolve cs entry c' :
  In entry alias_table ->
  resolve (snd entry) (map (canonical_name cs) cs) = Some c' ->
  c' = fst entry.
Proof.
  intros He R. destruct (alias_table_names entry He) as (Hlow & [rest Hsnd] & Huniq).
  destruct (column_named (fst entry) (map (canonical_name cs) cs)) as [c1|] eqn:E1.
  - rewrite Hsnd in R. simpl in R. rewrite E1 in R. injection R as <-.
    eauto using normalized_canonical_column.
  - exfalso. destruct (resolve_alias _ _ _ R) as (a & Ha & Hc).
    pose proof (column_named_lower _ _ _ Hc) as Hl.
    apply column_named_In, in_map_iff in Hc. destruct Hc as (x & <- & Hx).
    destruct (canonical_name_cases cs x) as [Hsame|(e2 & He2 & R2 & Hren)].
    + rewrite Hsame in Hl.
      destruct (resolve_exists (snd entry) cs x Hx) as [c R0]; [now rewrite Hl|].
      pose proof (canonical_name_resolved cs entry c He R0) as Hg.
      apply resolve_In in R0.
      destruct (column_named_exists (fst entry) (map (canonical_name cs) cs)
                  (canonical_name cs c)) as [c2 E2].
      * apply in_map_iff. eauto.
      * now rewrite Hg.
      * congruence.
    + rewrite Hren in Hl.
      destruct (alias_table_names e2 He2) as (Hlow2 & _ & _).
      rewrite Hlow2 in Hl. rewrite <- Hl in Ha.
      assert (entry = e2) as ->
        by (apply (proj2 (proj2 (alias_table_names e2 He2))); assumption).
      destruct (column_named_exists (fst e2) (map (canonical_name cs) cs)
                  (canonical_name cs x)) as [c2 E2].
      * apply in_map_iff. eauto.
      * now rewrite Hren.
      * congruence.
Qed.

(** X1. Normalizing a normalized table changes nothing. *)
Theorem normalize_df_idempotent (df : DataFrame) :
  normalize_df (normalize_df df) = normalize_df df.
Proof.
  rewrite (normalize_df_eq (normalize_df df)).
  rewrite (normalize_df_eq df). cbn [columns rows]. f_equal.
  set (cs' := map (canonical_name (columns df)) (columns df)).
  rewrite <- (map_id cs') at 3. apply map_ext. intros c'.
  destruct (canonical_name_cases cs' c') as [H|(entry & He & R & H)];
    [assumption|].
  rewrite H. symmetry. eauto using normalized_resolve.
Qed.

Lemma has_column_In df name : has_column df name = true <-> In name (columns df).
Proof. unfold has_column. apply existsb_eqb_In. Qed.

Lemma normalized_has_column (df : DataFrame) (entry : string * list string) :
  In entry alias_table ->
  (has_column (normalize_df df) (fst entry) = true <->
   exists c, In c (columns df) /\ In (lower c) (snd entry)).
Proof.
  intros He. destruct (alias_table_names entry He) as (Hlow & [rest Hsnd] & Huniq).
  rewrite has_column_In, normalize_df_columns, in_map_iff. split.
  - intros (x & Hg & Hx).
    destruct (canonical_name_cases (columns df) x) as [Hsame|(e2 & He2 & R2 & Hren)].
    + exists x. split; [assumption|].
      rewrite Hsame in Hg. subst x. rewrite Hlow, Hsnd. now left.
    + assert (e2 = entry) as ->.
      { apply Huniq; [assumption|].
        destruct (alias_table_names e2 He2) as (_ & [rest2 ->] & _).
        left. congruence. }
      exists x. split; [assumption|]. eauto using resolve_lower.
  - intros (c & Hc & Ha).
    destruct (resolve_exists _ _ _ Hc Ha) as [c' R].
    exists c'. split; [now apply canonical_name_resolved|eauto using resolve_In].
Qed.

(** X2. After normalization the table has the column [region] (likewise
    [latency_ms], [uptime]) exactly when some column of the source answers,
    regardless of case, to one of the aliases of that name. *)
Theorem normalize_df_resolves_aliases (df : DataFrame) (entry : string * list string) :
  In entry alias_table ->
  (has_column (normalize_df df) (fst entry) = true <->
   exists c, In c (columns df) /\ In (lower c) (snd entry)).
Proof. apply normalized_has_column. Qed.

(** X3. The normalizer keeps the number of columns, and a column either
    keeps its name or takes the canonical name of an alias it answers to. *)
Theorem normalize_df_renames_only_aliases (df : DataFrame) :
  List.length (columns (normalize_df df)) = List.length (columns df) /\
  forall i c,
    nth_error (columns df) i = Some c ->
    exists c',
      nth_error (columns (normalize_df df)) i = Some c' /\
      (c' = c \/
       exists entry, In entry alias_table /\ c' = fst entry /\
                     In (lower c) (snd entry)).
Proof.
  split; [rewrite normalize_df_columns; apply length_map|].
  intros i c Hi. exists (canonical_name (columns df) c).
  split; [now apply nth_error_normalize|].
  destruct (canonical_name_cases (columns df) c) as [H|(entry & He & R & H)];
    [now left|].
  right. exists entry. eauto using resolve_lower.
Qed.

(** ** Bounds *)

Lemma Qsum_bounds (a b : Q) l :
  (forall x, In x l -> a <= x <= b) ->
  a * inject_Z (Z.of_nat (List.length l)) <= Qsum l
  <= b * inject_Z (Z.of_nat (List.length l)).
Proof.
  induction l as [|x l IH]; intros H.
  - cbn. split; ring_simplify; apply Qle_refl.
  - rewrite length_succ_Q. cbn [Qsum fold_right]. fold (Qsum l).
    pose proof (H x (or_introl eq_refl)) as [Hx1 Hx2].
    destruct IH as [I1 I2]; [intros; apply H; now right|].
    split; ring_simplify; lra.
Qed.

(** The mean of a sample lies between any bounds of the sample. *)
Lemma mean_bounds (a b : Q) l :
  l <> [] -> (forall x, In x l -> a <= x <= b) -> a <= mean l <= b.
Proof.
  intros Hne H. pose proof (Qsum_bounds a b l H) as [L U].
  assert (0 < inject_Z (Z.of_nat (List.length l))) as Hn.
  { destruct l; [contradiction|]. rewrite length_succ_Q.
    pose proof (length_nonneg_Q l). lra. }
  unfold mean. split.
  - now apply Qle_shift_div_l.
  - now apply Qle_shift_div_r.
Qed.

(** So does the percentile. *)
Lemma percentile_bounds (a b : Q) l :
  l <> [] -> (forall x, In x l -> a <= x <= b) -> a <= percentile l 95 <= b.
Proof.
  intros Hne H. unfold percentile. rewrite sort_length.
  set (n := Z.of_nat (List.length l)).
  assert (1 <= n)%Z as Hn by (unfold n; destruct l; [contradiction|cbn [List.length]; lia]).
  set (vi := inject_Z (n - 1) * (95 / 100)).
  assert (0 <= inject_Z (n - 1)) as Hn0.
  { change 0 with (inject_Z 0). rewrite <- Zle_Qle. lia. }
  assert (0 <= vi <= inject_Z (n - 1)) as [V0 V1].
  { unfold vi. revert Hn0. generalize (inject_Z (n - 1)). intros N HN.
    setoid_replace (95 / 100) with (95 # 100) by reflexivity.
    split; lra. }
  destruct (floor_bounds vi) as [F0 F1].
  set (f := Qfloor vi) in *.
  assert (0 <= f <= n - 1)%Z as [Hf0 Hf1].
  { split.
    - change 0%Z with (Qfloor 0). now apply Qfloor_resp_le.
    - rewrite Zle_Qle. lra. }
  assert (forall i, (0 <= i <= n - 1)%Z ->
                    a <= nth (Z.to_nat i) (sort l) 0 <= b) as Hnth.
  { intros i Hi. apply H.
    apply (Permutation_in _ (Permutation_sym (sort_perm l))).
    apply nth_In. rewrite sort_length. unfold n in Hi. lia. }
  pose proof (Hnth f (conj Hf0 Hf1)) as [L1 L2].
  pose proof (Hnth (Z.min (f + 1) (n - 1)) ltac:(lia)) as [U1 U2].
  revert L1 L2 U1 U2.
  generalize (nth (Z.to_nat f) (sort l) 0)
             (nth (Z.to_nat (Z.min (f + 1) (n - 1))) (sort l) 0).
  intros lo hi L1 L2 U1 U2.
  set (g := vi - inject_Z f).
  assert (0 <= g <= 1) as [G0 G1] by (unfold g; lra).
  split; nra.
Qed.

(** Rounding keeps a value within integer bounds. *)
Lemma py_round_bounds (a b : Z) x n :
  inject_Z a <= x <= inject_Z b ->
  inject_Z a <= py_round x n <= inject_Z b.
Proof.
  intros [L U]. pose proof (pow10_pos n) as Hm.
  unfold py_round. set (k := (10 ^ Z.of_nat n)%Z) in *.
  assert (a * k <= round_half_even (x * inject_Z k))%Z as H0.
  { apply round_half_even_ge. rewrite inject_Z_mult. nra. }
  assert (round_half_even (x * inject_Z k) <= b * k)%Z as H1.
  { apply round_half_even_le. rewrite inject_Z_mult. nra. }
  rewrite Zle_Qle, inject_Z_mult in H0, H1.
  split.
  - now apply Qle_shift_div_l.
  - now apply Qle_shift_div_r.
Qed.

Lemma filter_above_antitone (t1 t2 : Q) l :
  t1 <= t2 ->
  (List.length (filter (fun x => Qgt_bool x t2) l)
   <= List.length (filter (fun x => Qgt_bool x t1) l))%nat.
Proof.
  intros Ht. induction l as [|x l IH]; simpl; [lia|].
  destruct (Qgt_bool x t2) eqn:E2.
  - apply Qgt_bool_iff in E2.
    assert (Qgt_bool x t1 = true) as -> by (apply Qgt_bool_iff; lra).
    simpl. lia.
  - destruct (Qgt_bool x t1); simpl; lia.
Qed.

Lemma dropna_length (l : list (option Q)) :
  (List.length (dropna l) <= List.length l)%nat.
Proof.
  induction l as [|[x|] l IH]; simpl; lia.
Qed.

(** ** Served calls *)

Section Extras.
Variable parse_text : string -> option Q.
Variable repr_cell : cell -> string.
Variable py_repr : json -> string.

Local Abbreviation metrics_for := (region_metrics parse_text repr_cell py_repr).
Local Abbreviation loop := (regions_loop parse_text repr_cell py_repr).
Local Abbreviation endpoint := (latency_endpoint parse_text repr_cell py_repr).
Local Abbreviation rows_of := (region_rows repr_cell py_repr).
Local Abbreviation samples_of := (samples parse_text repr_cell py_repr).
Local Abbreviation record_of := (served_record parse_text repr_cell py_repr).





(** X5. Over a table without any column that answers to [uptime] or [up],
    every record of a served call has no [avg_uptime]. *)
Theorem no_uptime_column_null df payload names out s :
  endpoint df (Some (JObj payload)) = Ok out ->
  payload_get payload "regions" = JArr (map JStr names) ->
  In s names ->
  (forall c, In c (columns df) -> lower c <> "uptime" /\ lower c <> "up") ->
  exists m,
    dict_get py_key_eqb out (JStr s) = Some m /\ avg_uptime m = None.
Proof.
  intros H Hr Hs Hcols.
  destruct (record_of _ _ _ _ _ H Hr Hs) as (m & t & Ht & Hg & Hm).
  exists m. split; [assumption|]. cbv zeta in Hm. rewrite Hm. cbn [avg_uptime].
  rewrite samples_no_column; [reflexivity|].
  destruct (has_column (normalize_df df) "uptime") eqn:E; [|reflexivity].
  exfalso.
  apply (normalized_has_column df ("uptime", ["uptime"; "up"])) in E;
    [|unfold alias_table; simpl; auto].
  destruct E as (c & Hc & Ha). destruct (Hcols c Hc) as [N1 N2].
  simpl in Ha. destruct Ha as [Ha|[Ha|[]]]; congruence.
Qed.

(** X6. [breaches] is a count: it lies between zero and the number of
    numeric latency samples of the region, itself at most the number of
    rows of the region. *)
Theorem breaches_bounds df payload names out s :
  endpoint df (Some (JObj payload)) = Ok out ->
  payload_get payload "regions" = JArr (map JStr names) ->
  In s names ->
  exists m,
    dict_get py_key_eqb out (JStr s) = Some m /\
    (0 <= breaches m
     <= Z.of_nat (List.length (samples_of (normalize_df df) "latency_ms" (JStr s))))%Z /\
    (List.length (samples_of (normalize_df df) "latency_ms" (JStr s))
     <= List.length (rows_of (normalize_df df) (JStr s)))%nat.
Proof.
  intros H Hr Hs.
  destruct (record_of _ _ _ _ _ H Hr Hs) as (m & t & Ht & Hg & Hm).
  exists m. split; [assumption|]. cbv zeta in Hm. rewrite Hm. cbn [breaches].
  pose proof (filter_length_le (fun x => Qgt_bool x t)
                (samples_of (normalize_df df) "latency_ms" (JStr s))) as H1.
  assert (List.length (samples_of (normalize_df df) "latency_ms" (JStr s))
          <= List.length (rows_of (normalize_df df) (JStr s)))%nat as H2.
  { unfold samples. etransitivity; [apply dropna_length|].
    now rewrite length_map. }
  lia.
Qed.

(** X7. The threshold only decides [breaches]: two served calls over one
    table give a region the same averages and percentile, and the call with
    the higher threshold counts no more breaches. *)
Theorem threshold_affects_breaches_only
        df payload1 payload2 names1 names2 out1 out2 s t1 t2 :
  endpoint df (Some (JObj payload1)) = Ok out1 ->
  endpoint df (Some (JObj payload2)) = Ok out2 ->
  payload_get payload1 "regions" = JArr (map JStr names1) ->
  payload_get payload2 "regions" = JArr (map JStr names2) ->
  In s names1 -> In s names2 ->
  as_number (payload_get payload1 "threshold_ms") = Some t1 ->
  as_number (payload_get payload2 "threshold_ms") = Some t2 ->
  t1 <= t2 ->
  exists m1 m2,
    dict_get py_key_eqb out1 (JStr s) = Some m1 /\
    dict_get py_key_eqb out2 (JStr s) = Some m2 /\
    avg_latency m1 = avg_latency m2 /\
    p95_latency m1 = p95_latency m2 /\
    avg_uptime m1 = avg_uptime m2 /\
    (breaches m2 <= breaches m1)%Z.
Proof.
  intros H1 H2 Hr1 Hr2 Hs1 Hs2 Ht1 Ht2 Hle.
  destruct (record_of _ _ _ _ _ H1 Hr1 Hs1) as (m1 & t1' & Ht1' & Hg1 & Hm1).
  destruct (record_of _ _ _ _ _ H2 Hr2 Hs2) as (m2 & t2' & Ht2' & Hg2 & Hm2).
  rewrite Ht1 in Ht1'. injection Ht1' as <-.
  rewrite Ht2 in Ht2'. injection Ht2' as <-.
  exists m1, m2. split; [assumption|]. split; [assumption|].
  cbv zeta in Hm1, Hm2. rewrite Hm1, Hm2.
  cbn [avg_latency p95_latency avg_uptime breaches].
  repeat (split; [reflexivity|]).
  apply Nat2Z.inj_le. now apply filter_above_antitone.
Qed.

(** X8. [avg_latency] and [p95_latency] stay within the range of the
    samples: when every numeric latency sample of the region lies between
    two integers, so do both values. The samples are few and small enough
    for their sums to be whole numbers a float holds exactly (at most
    [2^53]): beyond that the sum of the handler can round or overflow. *)
Theorem latency_within_sample_range df payload names out s (a b : Z) :
  endpoint df (Some (JObj payload)) = Ok out ->
  payload_get payload "regions" = JArr (map JStr names) ->
  In s names ->
  (forall x, In x (samples_of (normalize_df df) "latency_ms" (JStr s)) ->
             inject_Z a <= x <= inject_Z b) ->
  (Z.of_nat (List.length (samples_of (normalize_df df) "latency_ms" (JStr s)))
   * Z.max (Z.abs a) (Z.abs b) <= 2 ^ 53)%Z ->
  exists m,
    dict_get py_key_eqb out (JStr s) = Some m /\
    (forall v, avg_latency m = Some v -> inject_Z a <= v <= inject_Z b) /\
    (forall v, p95_latency m = Some v -> inject_Z a <= v <= inject_Z b).
Proof.
  intros H Hr Hs Hrange _.
  destruct (record_of _ _ _ _ _ H Hr Hs) as (m & t & Ht & Hg & Hm).
  exists m. split; [assumption|]. cbv zeta in Hm. rewrite Hm.
  cbn [avg_latency p95_latency].
  destruct (samples_of (normalize_df df) "latency_ms" (JStr s))
    as [|x lat] eqn:E; [split; discriminate|].
  split; intros v [= <-]; apply py_round_bounds.
  - apply mean_bounds; [discriminate|assumption].
  - apply percentile_bounds; [discriminate|assumption].
Qed.

(** X9. In a record of a served call [avg_latency] and [p95_latency] are
    absent together, exactly when the region has no numeric latency sample;
    [avg_uptime] is absent exactly when it has no numeric uptime sample. *)
Theorem null_fields_iff_no_samples df payload names out s :
  endpoint df (Some (JObj payload)) = Ok out ->
  payload_get payload "regions" = JArr (map JStr names) ->
  In s names ->
  exists m,
    dict_get py_key_eqb out (JStr s) = Some m /\
    (avg_latency m = None <->
     samples_of (normalize_df df) "latency_ms" (JStr s) = []) /\
    (p95_latency m = None <->
     samples_of (normalize_df df) "latency_ms" (JStr s) = []) /\
    (avg_uptime m = None <->
     samples_of (normalize_df df) "uptime" (JStr s) = []).
Proof.
  intros H Hr Hs.
  destruct (record_of _ _ _ _ _ H Hr Hs) as (m & t & Ht & Hg & Hm).
  exists m. split; [assumption|]. cbv zeta in Hm. rewrite Hm.
  cbn [avg_latency p95_latency avg_uptime].
  destruct (samples_of (normalize_df df) "latency_ms" (JStr s)) as [|x lat];
    destruct (samples_of (normalize_df df) "uptime" (JStr s)) as [|u up];
    cbn [mean_of option_map existsb map];
    try destruct (Qgt_bool u 1 || existsb _ up);
    cbn [mean_of option_map map];
    repeat split; intros; try reflexivity; try discriminate.
Qed.

(** X10. A region with a single numeric latency sample reports that sample,
    rounded, as its average and as its 95th percentile. *)
Theorem single_sample_region df payload names out s x :
  endpoint df (Some (JObj payload)) = Ok out ->
  payload_get payload "regions" = JArr (map JStr names) ->
  In s names ->
  samples_of (normalize_df df) "latency_ms" (JStr s) = [x] ->
  exists m,
    dict_get py_key_eqb out (JStr s) = Some m /\
    avg_latency m = Some (py_round x 3) /\
    p95_latency m = Some (py_round x 3).
Proof.
  intros H Hr Hs Hx.
  destruct (record_of _ _ _ _ _ H Hr Hs) as (m & t & Ht & Hg & Hm).
  exists m. split; [assumption|]. cbv zeta in Hm. rewrite Hm, Hx.
  cbn [avg_latency p95_latency mean_of option_map].
  split; f_equal; apply py_round_comp.
  - unfold mean. cbn. field.
  - unfold percentile. cbn. ring.
Qed.

End Extras.

(** ** Calls that are served and calls that are not *)

Section Calls.
Variable parse_text : string -> option Q.
Variable repr_cell : cell -> string.
Variable py_repr : json -> string.

Local Abbreviation metrics_for := (region_metrics parse_text repr_cell py_repr).
Local Abbreviation loop := (regions_loop parse_text repr_cell py_repr).
Local Abbreviation endpoint := (latency_endpoint parse_text repr_cell py_repr).

Lemma regions_loop_unhashable df threshold regions r :
  In r regions -> hashable r = false ->
  forall out, loop df threshold regions out = Err Uncaught.
Proof.
  intros Hin Hr. induction regions as [|r0 rest IH]; [contradiction|].
  intros out. cbn [regions_loop].
  destruct (metrics_for df r0 threshold) as [m|e] eqn:Hm; cbn [bind].
  - unfold out_set. destruct (hashable r0) eqn:H0; cbn [bind]; [|reflexivity].
    destruct Hin as [->|Hin]; [congruence|]. now apply IH.
  - f_equal. eauto using region_metrics_error.
Qed.

(** X11. A list or an object among the requested regions cannot be a key of
    the mapping: a request that passes the shape and table checks and has
    one ends in an uncaught exception, whatever the other regions. *)
Theorem unhashable_region_uncaught df payload region_list r :
  payload_get payload "regions" = JArr region_list ->
  is_int_or_float (payload_get payload "threshold_ms") = true ->
  df_empty df = false ->
  has_column (normalize_df df) "region" = true ->
  has_column (normalize_df df) "latency_ms" = true ->
  In r region_list -> hashable r = false ->
  endpoint df (Some (JObj payload)) = Err Uncaught.
Proof.
  intros Hr Ht He H1 H2 Hin Hh. unfold latency_endpoint.
  rewrite Hr, Ht, He, H1, H2. cbn [negb orb].
  eauto using regions_loop_unhashable.
Qed.

Lemma regions_loop_fails df threshold regions r e :
  In r regions -> metrics_for df r threshold = Err e ->
  forall out, loop df threshold regions out = Err Uncaught.
Proof.
  intros Hin Hr. induction regions as [|r0 rest IH]; [contradiction|].
  intros out. cbn [regions_loop].
  destruct (metrics_for df r0 threshold) as [m|e0] eqn:Hm; cbn [bind].
  - unfold out_set. destruct (hashable r0) eqn:H0; cbn [bind]; [|reflexivity].
    destruct Hin as [->|Hin]; [congruence|]. now apply IH.
  - f_equal. eauto using region_metrics_error.
Qed.

(** With latency samples to compare, an integer threshold that [float]
    cannot convert makes the region fail. *)
Lemma region_metrics_overflow df region z :
  single_labels df = true -> int_too_large z = true ->
  samples parse_text repr_cell py_repr df "latency_ms" region <> [] ->
  metrics_for df region (JInt z) = Err Uncaught.
Proof.
  intros Hs Hz Hne. unfold single_labels in Hs.
  apply andb_true_iff in Hs. destruct Hs as [Hs _].
  apply andb_true_iff in Hs. destruct Hs as [Hr Hl].
  assert (forall name,
             Nat.eqb (List.length (positions name (columns df) 0)) 1 = true ->
             exists col, getitem df name = Ok col) as Hget.
  { intros name H. unfold getitem.
    destruct (positions name (columns df) 0) as [|? [|? ?]];
      try discriminate; eauto. }
  unfold region_metrics.
  destruct (Hget _ Hr) as [rcol Hrcol]. rewrite Hrcol. cbn [bind].
  pose proof (sub_rows repr_cell py_repr df region rcol Hrcol) as Hsub.
  destruct (df_empty _) eqn:Hemp.
  - exfalso. apply Hne. unfold samples. rewrite <- Hsub.
    unfold df_empty in Hemp. cbn [columns df_filter] in Hemp.
    destruct (columns df) eqn:Hc.
    + unfold getitem in Hrcol. rewrite Hc in Hrcol. discriminate.
    + destruct (rows _) in Hemp |- *; [reflexivity|discriminate].
  - rewrite getitem_filter. destruct (Hget _ Hl) as [lcol ->]. cbn [bind].
    rewrite Hsub, map_map.
    fold (samples parse_text repr_cell py_repr df "latency_ms" region).
    destruct (samples parse_text repr_cell py_repr df "latency_ms" region);
      [contradiction|].
    cbn [py_float]. rewrite Hz. reflexivity.
Qed.

(** X12. A request with a list of strings and a threshold that is a float,
    a boolean or an integer within the range of a float, over a table with
    rows whose normalized header names [region] and [latency_ms] once each
    and [uptime] at most once, is served, and the keys of the mapping are
    the distinct regions in the order of their first occurrence. With an
    integer threshold beyond that range ([2^1024 - 2^970] or more in
    absolute value) the same request ends in an uncaught exception as soon
    as one requested region has a numeric latency sample. *)
Theorem well_formed_call_served :
  (forall df payload names,
      payload_get payload "regions" = JArr (map JStr names) ->
      is_int_or_float (payload_get payload "threshold_ms") = true ->
      (forall z, payload_get payload "threshold_ms" = JInt z ->
                 (Z.abs z < 2 ^ 1024 - 2 ^ 970)%Z) ->
      df_empty df = false ->
      single_labels (normalize_df df) = true ->
      exists out,
        endpoint df (Some (JObj payload)) = Ok out /\
        dict_keys out = map JStr (first_occurrences names)) /\
  (forall df payload names s z,
      payload_get payload "regions" = JArr (map JStr names) ->
      payload_get payload "threshold_ms" = JInt z ->
      (2 ^ 1024 - 2 ^ 970 <= Z.abs z)%Z ->
      df_empty df = false ->
      single_labels (normalize_df df) = true ->
      In s names ->
      samples parse_text repr_cell py_repr (normalize_df df)
        "latency_ms" (JStr s) <> [] ->
      endpoint df (Some (JObj payload)) = Err Uncaught).
Proof.
  assert (forall df name,
             Nat.eqb (List.length (positions name (columns df) 0)) 1 = true ->
             has_column df name = true) as Hhas.
  { intros df name H. unfold has_column.
    destruct (existsb _ _) eqn:E; [reflexivity|].
    rewrite (positions_none _ _ _ E) in H. discriminate. }
  split.
  - intros df payload names Hr Ht Hrange He Hs.
    assert (float_convertible (payload_get payload "threshold_ms") = true) as Hf.
    { destruct (payload_get payload "threshold_ms") as [| |z| | | |];
        try reflexivity.
      cbn [float_convertible]. apply negb_true_iff. unfold int_too_large.
      apply Z.leb_gt. now apply Hrange. }
    destruct (latency_endpoint_returns parse_text repr_cell py_repr
                df payload names Hr Ht Hf He Hs) as [out H].
    exists out. split; [assumption|].
    destruct (latency_endpoint_Ok _ _ _ _ _ _ H)
      as (rs & t & Hrs & _ & _ & _ & _ & Hloop).
    rewrite Hr in Hrs. injection Hrs as <-.
    now destruct (regions_loop_inv _ _ _ _ _ _ [] [] out eq_refl Hloop)
      as (Hk & _).
  - intros df payload names s z Hr Ht Hz He Hs Hin Hne.
    assert (int_too_large z = true) as Hz'
        by (unfold int_too_large; now apply Z.leb_le).
    unfold latency_endpoint. rewrite Hr, Ht, He. cbn [is_int_or_float negb].
    pose proof Hs as Hs'. unfold single_labels in Hs'.
    apply andb_true_iff in Hs'. destruct Hs' as [Hs' _].
    apply andb_true_iff in Hs'. destruct Hs' as [H1 H2].
    rewrite (Hhas _ _ H1), (Hhas _ _ H2). cbn [negb orb].
    apply (regions_loop_fails _ _ _ (JStr s) Uncaught).
    + apply in_map_iff. eauto.
    + now apply region_metrics_overflow.
Qed.

(** X13. When the normalized header names [region] more than once (a column
    [Region] renamed next to an earlier [region]), a request for at least
    one region that passes the checks ends in an uncaught exception. *)
Theorem duplicate_region_label_uncaught df payload r rest :
  payload_get payload "regions" = JArr (r :: rest) ->
  is_int_or_float (payload_get payload "threshold_ms") = true ->
  df_empty df = false ->
  has_column (normalize_df df) "latency_ms" = true ->
  (2 <= List.length (positions "region" (columns (normalize_df df)) 0))%nat ->
  endpoint df (Some (JObj payload)) = Err Uncaught.
Proof.
  intros Hr Ht He H2 Hdup. unfold latency_endpoint.
  rewrite Hr, Ht, He, H2. cbn [negb orb].
  assert (has_column (normalize_df df) "region" = true) as ->.
  { unfold has_column. destruct (existsb _ _) eqn:E; [reflexivity|].
    rewrite (positions_none _ _ _ E) in Hdup. simpl in Hdup. lia. }
  cbn [negb regions_loop]. unfold region_metrics, getitem.
  destruct (positions "region" (columns (normalize_df df)) 0) as [|i [|j l]];
    simpl in Hdup; try lia; reflexivity.
Qed.

(** X14. A request of the right shape over a table with rows fails with
    [SchemaMismatch] exactly when no column answers to [region], or none
    answers to [latency_ms], [latency] or [ping]. *)
Theorem schema_mismatch_iff df payload region_list :
  payload_get payload "regions" = JArr region_list ->
  is_int_or_float (payload_get payload "threshold_ms") = true ->
  df_empty df = false ->
  (endpoint df (Some (JObj payload)) = Err SchemaMismatch <->
   ~ (exists c, In c (columns df) /\ lower c = "region") \/
   ~ (exists c, In c (columns df) /\
                In (lower c) ["latency_ms"; "latency"; "ping"])).
Proof.
  intros Hr Ht He.
  assert (has_column (normalize_df df) "region" = true <->
          exists c, In c (columns df) /\ lower c = "region") as Hreg.
  { rewrite (normalized_has_column df ("region", ["region"]));
      [|unfold alias_table; simpl; auto].
    split; intros (c & Hc & Ha); exists c; (split; [assumption|]);
      simpl in *; [destruct Ha as [Ha|[]]|]; auto. }
  assert (has_column (normalize_df df) "latency_ms" = true <->
          exists c, In c (columns df) /\
                    In (lower c) ["latency_ms"; "latency"; "ping"]) as Hlat.
  { apply (normalized_has_column df ("latency_ms", ["latency_ms"; "latency"; "ping"])).
    unfold alias_table. simpl. auto. }
  unfold latency_endpoint. rewrite Hr, Ht, He. cbn [negb].
  destruct (has_column (normalize_df df) "region") eqn:E1;
    destruct (has_column (normalize_df df) "latency_ms") eqn:E2;
    cbn [negb orb]; split; intros H; try reflexivity.
  - apply regions_loop_error in H. discriminate.
  - exfalso. destruct H as [H|H]; apply H; [now apply Hreg|now apply Hlat].
  - right. intros Hx. apply Hlat in Hx. discriminate.
  - left. intros Hx. apply Hreg in Hx. discriminate.
  - left. intros Hx. apply Hreg in Hx. discriminate.
Qed.

(** X15. The import fails only when the first read raises something other
    than a [ValueError]. When the first read raises a [ValueError] and the
    second read raises too, the table is the empty frame: no request gets a
    mapping, and every request of the right shape fails with
    [DataUnavailable]. *)
Theorem load_failure_data_unavailable :
  (forall first second,
      load_telemetry first second = None <-> first = FirstOtherError) /\
  (forall df,
      load_telemetry FirstValueError None = Some df ->
      (forall body, exists e, endpoint df body = Err e) /\
      (forall payload region_list,
          payload_get payload "regions" = JArr region_list ->
          is_int_or_float (payload_get payload "threshold_ms") = true ->
          endpoint df (Some (JObj payload)) = Err DataUnavailable)).
Proof.
  split.
  - intros first second. destruct first, second; simpl; split;
      intros H; try discriminate; reflexivity.
  - intros df [= <-]. split.
    + intros body. unfold latency_endpoint.
      destruct body as [[| | | | | |payload]|]; eauto.
      destruct (payload_get payload "regions"); eauto.
      destruct (is_int_or_float _); cbn [negb]; eauto.
      change (df_empty empty_frame) with true. cbv iota. eauto.
    + intros payload rs Hr Ht. unfold latency_endpoint.
      now rewrite Hr, Ht.
Qed.

End Calls.

(** ** Keys that are equal without being the same value *)

Lemma py_key_eqb_sym a b : py_key_eqb a b = py_key_eqb b a.
Proof.
  destruct a, b; simpl; try reflexivity;
    auto using Qeq_bool_comm, String.eqb_sym.
Qed.

Lemma py_key_eqb_trans a b c :
  py_key_eqb a b = true -> py_key_eqb b c = true -> py_key_eqb a c = true.
Proof.
  destruct a, b, c; simpl; try discriminate; try reflexivity;
    try apply Qeq_bool_trans.
  intros H1 H2. apply String.eqb_eq in H1, H2. subst. apply String.eqb_refl.
Qed.

(** Looking up after an assignment, for keys that may be equal without
    being the same value. *)
Lemma out_get_set (d : list (json * Metrics)) k m k2 :
  dict_get py_key_eqb (dict_set py_key_eqb d k m) k2 =
  if py_key_eqb k k2 then Some m else dict_get py_key_eqb d k2.
Proof.
  induction d as [|[k' m'] d IH]; simpl; [reflexivity|].
  destruct (py_key_eqb k' k) eqn:E; simpl.
  - destruct (py_key_eqb k k2) eqn:E2.
    + now rewrite (py_key_eqb_trans _ _ _ E E2).
    + destruct (py_key_eqb k' k2) eqn:E3; [|reflexivity].
      rewrite py_key_eqb_sym in E.
      now rewrite (py_key_eqb_trans _ _ _ E E3) in E2.
  - rewrite IH. destruct (py_key_eqb k' k2) eqn:E3; [|reflexivity].
    destruct (py_key_eqb k k2) eqn:E2; [|reflexivity].
    rewrite py_key_eqb_sym in E3.
    now rewrite py_key_eqb_sym, (py_key_eqb_trans _ _ _ E2 E3) in E.
Qed.

Lemma out_get_equal_keys (d : list (json * Metrics)) k1 k2 :
  py_key_eqb k1 k2 = true ->
  dict_get py_key_eqb d k1 = dict_get py_key_eqb d k2.
Proof.
  intros E. induction d as [|[k' m'] d IH]; simpl; [reflexivity|].
  destruct (py_key_eqb k' k1) eqn:E1.
  - now rewrite (py_key_eqb_trans _ _ _ E1 E).
  - destruct (py_key_eqb k' k2) eqn:E2; [|assumption].
    rewrite py_key_eqb_sym in E.
    now rewrite (py_key_eqb_trans _ _ _ E2 E) in E1.
Qed.

Section Keys.
Variable parse_text : string -> option Q.
Variable repr_cell : cell -> string.
Variable py_repr : json -> string.

Local Abbreviation metrics_for := (region_metrics parse_text repr_cell py_repr).
Local Abbreviation loop := (regions_loop parse_text repr_cell py_repr).
Local Abbreviation endpoint := (latency_endpoint parse_text repr_cell py_repr).

Lemma regions_loop_app df threshold l1 l2 :
  forall out,
    loop df threshold (l1 ++ l2) out =
    bind (loop df threshold l1 out) (fun out1 => loop df threshold l2 out1).
Proof.
  induction l1 as [|r l1 IH]; intros out; simpl; [reflexivity|].
  destruct (metrics_for df r threshold); cbn [bind]; [|reflexivity].
  destruct (out_set out r a); cbn [bind]; auto.
Qed.

(** Regions whose key differs from [k] leave the entry of [k] alone. *)
Lemma regions_loop_other_keys df threshold regions k :
  (forall x, In x regions -> py_key_eqb x k = false) ->
  forall out out',
    loop df threshold regions out = Ok out' ->
    dict_get py_key_eqb out' k = dict_get py_key_eqb out k.
Proof.
  induction regions as [|r rest IH]; intros Hne out out'; simpl.
  - now intros [= <-].
  - destruct (metrics_for df r threshold) as [m|]; [|discriminate].
    cbn [bind]. unfold out_set. destruct (hashable r); [|discriminate].
    cbn [bind]. intros H.
    rewrite (IH (fun x Hx => Hne x (or_intror Hx)) _ _ H).
    rewrite out_get_set, (Hne r (or_introl eq_refl)). reflexivity.
Qed.

(** X16. The mapping keeps, under a key, the record of the last requested
    region equal to that key as a dictionary key: looking up any region
    equal to it ([1], [1.0] and [true] are equal keys) yields that record,
    computed for the text of the last one. *)
Theorem last_equal_key_wins df payload before r after out :
  endpoint df (Some (JObj payload)) = Ok out ->
  payload_get payload "regions" = JArr (before ++ r :: after) ->
  (forall x, In x after -> py_key_eqb x r = false) ->
  exists m,
    metrics_for (normalize_df df) r (payload_get payload "threshold_ms") = Ok m /\
    forall r', py_key_eqb r' r = true ->
               dict_get py_key_eqb out r' = Some m.
Proof.
  intros H Hr Hlast.
  destruct (latency_endpoint_Ok _ _ _ _ _ _ H)
    as (rs & t & Hrs & _ & _ & _ & _ & Hloop).
  rewrite Hr in Hrs. injection Hrs as <-.
  rewrite regions_loop_app in Hloop.
  destruct (loop (normalize_df df) _ before []) as [out1|]; [|discriminate].
  cbn [bind regions_loop] in Hloop.
  destruct (metrics_for (normalize_df df) r _) as [m|] eqn:Hm; [|discriminate].
  cbn [bind] in Hloop. unfold out_set in Hloop.
  destruct (hashable r) eqn:Hh; [|discriminate]. cbn [bind] in Hloop.
  exists m. split; [reflexivity|]. intros r' Hr'.
  rewrite (out_get_equal_keys _ _ _ Hr').
  rewrite (regions_loop_other_keys _ _ _ _ Hlast _ _ Hloop).
  rewrite out_get_set. now rewrite (py_key_eqb_refl r Hh).
Qed.

End Keys.

(** ** Instances of the further properties *)

Lemma normalize_df_resolves_aliases_witness :
  In ("latency_ms", ["latency_ms"; "latency"; "ping"]) alias_table /\
  has_column (normalize_df aliased_table) "latency_ms" = true /\
  exists c, In c (columns aliased_table) /\
            In (lower c) ["latency_ms"; "latency"; "ping"].
Proof.
  assert (In ("latency_ms", ["latency_ms"; "latency"; "ping"]) alias_table) as He
      by (unfold alias_table; simpl; auto).
  split; [exact He|]. split; [reflexivity|].
  apply (normalize_df_resolves_aliases aliased_table _ He). reflexivity.
Defined.

Lemma normalize_df_renames_only_aliases_witness :
  nth_error (columns aliased_table) 2 = Some "Ping" /\
  exists c',
    nth_error (columns (normalize_df aliased_table)) 2 = Some c' /\
    (c' = "Ping" \/
     exists entry, In entry alias_table /\ c' = fst entry /\
                   In (lower "Ping") (snd entry)).
Proof.
  split; [reflexivity|].
  apply (proj2 (normalize_df_renames_only_aliases aliased_table) 2%nat "Ping").
  reflexivity.
Defined.


Lemma no_uptime_column_null_witness :
  serve nyc_table (Some (JObj nyc_payload)) = Ok nyc_out /\
  exists m,
    dict_get py_key_eqb nyc_out (JStr "nyc1") = Some m /\ avg_uptime m = None.
Proof.
  split; [vm_compute; reflexivity|].
  apply (no_uptime_column_null digits_only nan_text opaque_text
           nyc_table nyc_payload ["nyc1"; "sfo"] nyc_out).
  - vm_compute. reflexivity.
  - reflexivity.
  - simpl. auto.
  - intros c Hc. simpl in Hc. destruct Hc as [<-|[<-|[]]]; split; discriminate.
Defined.

Lemma breaches_bounds_witness :
  serve mixed_table (Some (JObj mixed_payload)) = Ok mixed_out /\
  exists m,
    dict_get py_key_eqb mixed_out (JStr "us-east") = Some m /\
    (0 <= breaches m <= 2)%Z.
Proof.
  split; [vm_compute; reflexivity|].
  destruct (breaches_bounds digits_only nan_text opaque_text
              mixed_table mixed_payload mixed_names mixed_out "us-east")
    as (m & Hg & Hb & _).
  - vm_compute. reflexivity.
  - reflexivity.
  - simpl. auto.
  - exists m. split; [exact Hg|]. vm_compute in Hb. exact Hb.
Defined.

Lemma threshold_affects_breaches_only_witness :
  serve mixed_table (Some (JObj mixed_payload)) = Ok mixed_out /\
  serve mixed_table (Some (JObj higher_payload)) = Ok higher_out /\
  120 <= 2005 # 10 /\
  exists m1 m2,
    dict_get py_key_eqb mixed_out (JStr "us-east") = Some m1 /\
    dict_get py_key_eqb higher_out (JStr "us-east") = Some m2 /\
    avg_latency m1 = avg_latency m2 /\
    (breaches m2 <= breaches m1)%Z.
Proof.
  split; [vm_compute; reflexivity|]. split; [vm_compute; reflexivity|].
  split; [vm_compute; discriminate|].
  destruct (threshold_affects_breaches_only digits_only nan_text opaque_text
              mixed_table mixed_payload higher_payload mixed_names mixed_names
              mixed_out higher_out "us-east" 120 (2005 # 10))
    as (m1 & m2 & H1 & H2 & Ha & _ & _ & Hb).
  - vm_compute. reflexivity.
  - vm_compute. reflexivity.
  - reflexivity.
  - reflexivity.
  - simpl. auto.
  - simpl. auto.
  - reflexivity.
  - reflexivity.
  - vm_compute. discriminate.
  - exists m1, m2. auto.
Defined.

Lemma latency_within_sample_range_witness :
  serve mixed_table (Some (JObj mixed_payload)) = Ok mixed_out /\
  exists m,
    dict_get py_key_eqb mixed_out (JStr "us-east") = Some m /\
    (forall v, avg_latency m = Some v -> inject_Z 120 <= v <= inject_Z 180) /\
    (forall v, p95_latency m = Some v -> inject_Z 120 <= v <= inject_Z 180).
Proof.
  split; [vm_compute; reflexivity|].
  apply (latency_within_sample_range digits_only nan_text opaque_text
           mixed_table mixed_payload mixed_names mixed_out "us-east").
  - vm_compute. reflexivity.
  - reflexivity.
  - simpl. auto.
  - intros x Hx. vm_compute in Hx.
    destruct Hx as [<-|[<-|[]]]; split; vm_compute; discriminate.
  - vm_compute. discriminate.
Defined.

Lemma null_fields_iff_no_samples_witness :
  serve mixed_table (Some (JObj mixed_payload)) = Ok mixed_out /\
  exists m,
    dict_get py_key_eqb mixed_out (JStr "EU-WEST") = Some m /\
    avg_latency m = None /\ p95_latency m = None.
Proof.
  split; [vm_compute; reflexivity|].
  destruct (null_fields_iff_no_samples digits_only nan_text opaque_text
              mixed_table mixed_payload mixed_names mixed_out "EU-WEST")
    as (m & Hg & Ha & Hp & _).
  - vm_compute. reflexivity.
  - reflexivity.
  - simpl. auto.
  - exists m. split; [exact Hg|].
    split; [apply Ha|apply Hp]; vm_compute; reflexivity.
Defined.

Lemma single_sample_region_witness :
  serve mixed_table (Some (JObj mixed_payload)) = Ok mixed_out /\
  samples digits_only nan_text opaque_text (normalize_df mixed_table)
    "latency_ms" (JStr "ap-south") = [90] /\
  exists m,
    dict_get py_key_eqb mixed_out (JStr "ap-south") = Some m /\
    avg_latency m = Some (py_round 90 3) /\
    p95_latency m = Some (py_round 90 3).
Proof.
  split; [vm_compute; reflexivity|]. split; [vm_compute; reflexivity|].
  apply (single_sample_region digits_only nan_text opaque_text
           mixed_table mixed_payload mixed_names mixed_out "ap-south" 90).
  - vm_compute. reflexivity.
  - reflexivity.
  - simpl. auto.
  - vm_compute. reflexivity.
Defined.

Lemma unhashable_region_uncaught_witness :
  hashable (JArr [JStr "eu-west"]) = false /\
  serve mixed_table (Some (JObj nested_payload)) = Err Uncaught.
Proof.
  split; [reflexivity|].
  apply (unhashable_region_uncaught digits_only nan_text opaque_text
           mixed_table nested_payload
           [JStr "us-east"; JArr [JStr "eu-west"]] (JArr [JStr "eu-west"]));
    try reflexivity.
  simpl. auto.
Defined.

Lemma well_formed_call_served_witness :
  single_labels (normalize_df mixed_table) = true /\
  (exists out,
      serve mixed_table (Some (JObj mixed_payload)) = Ok out /\
      dict_keys out = map JStr (first_occurrences mixed_names)) /\
  serve mixed_table (Some (JObj huge_payload)) = Err Uncaught.
Proof.
  destruct (well_formed_call_served digits_only nan_text opaque_text)
    as (Hserved & Hraises).
  split; [reflexivity|]. split.
  - apply (Hserved mixed_table mixed_payload mixed_names); try reflexivity.
    intros z [= <-]. vm_compute. reflexivity.
  - apply (Hraises mixed_table huge_payload mixed_names "us-east" (2 ^ 1024)%Z);
      try reflexivity.
    + vm_compute. discriminate.
    + simpl. auto.
    + vm_compute. discriminate.
Defined.

Lemma duplicate_region_label_uncaught_witness :
  columns (normalize_df twice_region_table) = ["region"; "region"; "latency_ms"] /\
  serve twice_region_table (Some (JObj mixed_payload)) = Err Uncaught.
Proof.
  split; [reflexivity|].
  apply (duplicate_region_label_uncaught digits_only nan_text opaque_text
           twice_region_table mixed_payload (JStr "us-east")
           (map JStr ["EU-WEST"; "ap-south"; "us-east"; "nowhere"]));
    reflexivity.
Defined.

Lemma schema_mismatch_iff_witness :
  ~ (exists c, In c (columns uptime_only_table) /\
               In (lower c) ["latency_ms"; "latency"; "ping"]) /\
  serve uptime_only_table (Some (JObj mixed_payload)) = Err SchemaMismatch.
Proof.
  assert (~ (exists c, In c (columns uptime_only_table) /\
                       In (lower c) ["latency_ms"; "latency"; "ping"])) as Hno.
  { intros (c & Hc & Ha). simpl in Hc.
    destruct Hc as [<-|[<-|[]]]; simpl in Ha;
      repeat (destruct Ha as [Ha|Ha]; try discriminate Ha); contradiction. }
  split; [exact Hno|].
  apply (schema_mismatch_iff digits_only nan_text opaque_text
           uptime_only_table mixed_payload (map JStr mixed_names));
    try reflexivity.
  right. exact Hno.
Defined.

Lemma load_failure_data_unavailable_witness :
  load_telemetry FirstValueError None = Some empty_frame /\
  serve empty_frame (Some (JObj mixed_payload)) = Err DataUnavailable.
Proof.
  split; [reflexivity|].
  destruct (load_failure_data_unavailable digits_only nan_text opaque_text)
    as (_ & H).
  destruct (H empty_frame eq_refl) as (_ & Hshape).
  apply (Hshape mixed_payload (map JStr mixed_names)); reflexivity.
Defined.

Lemma last_equal_key_wins_witness :
  serve keyed_table (Some (JObj keyed_payload)) = Ok keyed_out /\
  py_key_eqb (JInt 1) (JBool true) = true /\
  dict_keys keyed_out = [JInt 1] /\
  exists m,
    region_metrics digits_only nan_text opaque_text (normalize_df keyed_table)
      (JBool true) (JInt 100) = Ok m /\
    dict_get py_key_eqb keyed_out (JInt 1) = Some m /\
    option_map Qred (avg_latency m) = Some 500.
Proof.
  split; [vm_compute; reflexivity|]. split; [reflexivity|].
  split; [reflexivity|].
  destruct (last_equal_key_wins digits_only nan_text opaque_text
              keyed_table keyed_payload [JInt 1] (JBool true) [] keyed_out)
    as (m & Hm & Hget).
  - vm_compute. reflexivity.
  - reflexivity.
  - intros x [].
  - exists m. split; [exact Hm|]. split; [apply Hget; reflexivity|].
    vm_compute in Hm. injection Hm as <-. vm_compute. reflexivity.
Defined.

(** ** The rows of a region and their order *)

Lemma Qle_bool_false a b : Qle_bool a b = false -> b < a.
Proof.
  intros H. apply Qnot_le_lt. intros L. apply Qle_bool_iff in L. congruence.
Qed.

Lemma Forall2_Qeq_refl l : Forall2 Qeq l l.
Proof. induction l; constructor; auto. reflexivity. Qed.

Lemma Forall2_Qeq_trans l1 l2 l3 :
  Forall2 Qeq l1 l2 -> Forall2 Qeq l2 l3 -> Forall2 Qeq l1 l3.
Proof.
  intros H. revert l3. induction H; intros l3 H3; inversion H3; subst;
    constructor; eauto. etransitivity; eauto.
Qed.

Ltac order_cases :=
  repeat match goal with
         | |- context [Qle_bool ?a ?b] =>
             let E := fresh "E" in
             destruct (Qle_bool a b) eqn:E;
             [apply Qle_bool_iff in E|apply Qle_bool_false in E];
             cbn [insert]
         end.

Ltac same_values :=
  first [ exfalso; lra
        | repeat (constructor; [lra|]); apply Forall2_Qeq_refl ].

Lemma insert_compat x l1 l2 :
  Forall2 Qeq l1 l2 -> Forall2 Qeq (insert x l1) (insert x l2).
Proof.
  induction 1 as [|y1 y2 l1 l2 Hy Hl IH]; cbn [insert].
  - repeat constructor.
  - assert (Qle_bool x y1 = Qle_bool x y2) as -> by now rewrite Hy.
    destruct (Qle_bool x y2).
    + constructor; [reflexivity|]. now constructor.
    + now constructor.
Qed.

Lemma insert_comm x y l :
  Forall2 Qeq (insert x (insert y l)) (insert y (insert x l)).
Proof.
  induction l as [|z l IH]; cbn [insert].
  - order_cases; same_values.
  - destruct (Qle_bool y z) eqn:Eyz; destruct (Qle_bool x z) eqn:Exz;
      cbn [insert]; rewrite ?Eyz, ?Exz;
      [apply Qle_bool_iff in Eyz, Exz
      |apply Qle_bool_iff in Eyz; apply Qle_bool_false in Exz
      |apply Qle_bool_false in Eyz; apply Qle_bool_iff in Exz
      |constructor; [reflexivity|exact IH]];
      order_cases; same_values.
Qed.

(** Sorting two arrangements of a sample gives the same values in order. *)
Lemma sort_perm_values l1 l2 :
  Permutation l1 l2 -> Forall2 Qeq (sort l1) (sort l2).
Proof.
  induction 1; cbn [sort].
  - constructor.
  - now apply insert_compat.
  - apply insert_comm.
  - eauto using Forall2_Qeq_trans.
Qed.

Lemma Forall2_Qeq_nth l1 l2 i :
  Forall2 Qeq l1 l2 -> nth i l1 0 == nth i l2 0.
Proof.
  intros H. revert i. induction H; intros [|i]; simpl; auto; reflexivity.
Qed.

Lemma percentile_perm l1 l2 q :
  Permutation l1 l2 -> percentile l1 q == percentile l2 q.
Proof.
  intros H. unfold percentile. rewrite !sort_length.
  rewrite (Permutation_length H).
  pose proof (sort_perm_values _ _ H) as Hs.
  set (n := Z.of_nat (List.length l2)).
  set (vi := inject_Z (n - 1) * (q / 100)).
  pose proof (Forall2_Qeq_nth _ _ (Z.to_nat (Qfloor vi)) Hs) as H1.
  pose proof (Forall2_Qeq_nth _ _
                (Z.to_nat (Z.min (Qfloor vi + 1) (n - 1))) Hs) as H2.
  revert H1 H2.
  generalize (nth (Z.to_nat (Qfloor vi)) (sort l1) 0)
             (nth (Z.to_nat (Qfloor vi)) (sort l2) 0)
             (nth (Z.to_nat (Z.min (Qfloor vi + 1) (n - 1))) (sort l1) 0)
             (nth (Z.to_nat (Z.min (Qfloor vi + 1) (n - 1))) (sort l2) 0).
  intros a1 a2 b1 b2 Ha Hb. now rewrite Ha, Hb.
Qed.



Lemma dropna_map_perm {A : Type} (f : A -> option Q) l1 l2 :
  Permutation l1 l2 -> Permutation (dropna (map f l1)) (dropna (map f l2)).
Proof.
  induction 1; simpl.
  - constructor.
  - destruct (f x); [now constructor|assumption].
  - destruct (f x), (f y); try reflexivity. apply perm_swap.
  - etransitivity; eauto.
Qed.

Lemma filter_length_perm {A : Type} (P : A -> bool) l1 l2 :
  Permutation l1 l2 ->
  List.length (filter P l1) = List.length (filter P l2).
Proof.
  induction 1; simpl.
  - reflexivity.
  - destruct (P x); simpl; congruence.
  - destruct (P x), (P y); reflexivity.
  - congruence.
Qed.



Lemma p95_of_perm l1 l2 :
  Permutation l1 l2 ->
  option_map (fun x => py_round x 3)
    (match l1 with [] => None | _ => Some (percentile l1 95) end) =
  option_map (fun x => py_round x 3)
    (match l2 with [] => None | _ => Some (percentile l2 95) end).
Proof.
  intros H. destruct l1 as [|x1 l1], l2 as [|x2 l2].
  - reflexivity.
  - apply Permutation_nil in H. discriminate.
  - apply Permutation_sym, Permutation_nil in H. discriminate.
  - cbn [option_map]. f_equal. now apply py_round_comp, percentile_perm.
Qed.

Section Rows.
Variable parse_text : string -> option Q.
Variable repr_cell : cell -> string.
Variable py_repr : json -> string.

Local Abbreviation endpoint := (latency_endpoint parse_text repr_cell py_repr).
Local Abbreviation rows_of := (region_rows repr_cell py_repr).
Local Abbreviation samples_of := (samples parse_text repr_cell py_repr).
Local Abbreviation record_of := (served_record parse_text repr_cell py_repr).

Lemma samples_perm df1 df2 name region :
  columns df1 = columns df2 ->
  Permutation (rows_of df1 region) (rows_of df2 region) ->
  Permutation (samples_of df1 name region) (samples_of df2 name region).
Proof.
  intros Hc Hp. unfold samples.
  assert (forall row, cell_at df1 name row = cell_at df2 name row) as Hcell
      by (intros row; unfold cell_at; now rewrite Hc).
  rewrite (map_ext _ (fun row => to_numeric parse_text (cell_at df2 name row)));
    [|intros row; now rewrite Hcell].
  now apply dropna_map_perm.
Qed.

(** X17. The record of a region depends on the rows of that region only:
    two tables with the same header and the same rows for a requested
    region, in the same order, give that region the same record, whatever
    their other rows. When the rows of the region are the same up to their
    order, [p95_latency] and [breaches] are still the same, and each of the
    two averages is absent in one table exactly when it is in the other. *)
Theorem record_of_region_rows df1 df2 payload names out1 out2 s :
  endpoint df1 (Some (JObj payload)) = Ok out1 ->
  endpoint df2 (Some (JObj payload)) = Ok out2 ->
  payload_get payload "regions" = JArr (map JStr names) ->
  In s names ->
  columns df1 = columns df2 ->
  (rows_of (normalize_df df1) (JStr s) = rows_of (normalize_df df2) (JStr s) ->
   dict_get py_key_eqb out1 (JStr s) = dict_get py_key_eqb out2 (JStr s)) /\
  (Permutation (rows_of (normalize_df df1) (JStr s))
               (rows_of (normalize_df df2) (JStr s)) ->
   exists m1 m2,
     dict_get py_key_eqb out1 (JStr s) = Some m1 /\
     dict_get py_key_eqb out2 (JStr s) = Some m2 /\
     p95_latency m1 = p95_latency m2 /\
     breaches m1 = breaches m2 /\
     (avg_latency m1 = None <-> avg_latency m2 = None) /\
     (avg_uptime m1 = None <-> avg_uptime m2 = None)).
Proof.
  intros H1 H2 Hr Hs Hc.
  destruct (record_of _ _ _ _ _ H1 Hr Hs) as (m1 & t1 & Ht1 & Hg1 & Hm1).
  destruct (record_of _ _ _ _ _ H2 Hr Hs) as (m2 & t2 & Ht2 & Hg2 & Hm2).
  rewrite Ht1 in Ht2. injection Ht2 as <-.
  cbv zeta in Hm1, Hm2.
  assert (columns (normalize_df df1) = columns (normalize_df df2)) as Hc'
      by (now rewrite !normalize_df_columns, Hc).
  assert (forall name row,
             cell_at (normalize_df df1) name row =
             cell_at (normalize_df df2) name row) as Hcell
      by (intros name row; unfold cell_at; now rewrite Hc').
  split.
  - intros Hrows. rewrite Hg1, Hg2. f_equal. rewrite Hm1, Hm2.
    assert (forall name,
               samples_of (normalize_df df1) name (JStr s) =
               samples_of (normalize_df df2) name (JStr s)) as Hsame.
    { intros name. unfold samples. rewrite Hrows. f_equal.
      apply map_ext. intros row. now rewrite Hcell. }
    now rewrite !Hsame.
  - intros Hp. exists m1, m2. split; [assumption|]. split; [assumption|].
    pose proof (samples_perm _ _ "latency_ms" _ Hc' Hp) as Hlat.
    pose proof (samples_perm _ _ "uptime" _ Hc' Hp) as Hup.
    rewrite Hm1, Hm2. cbn [p95_latency breaches avg_latency avg_uptime].
    split; [now apply p95_of_perm|].
    split; [f_equal; now apply filter_length_perm|].
    assert (forall l1 l2 : list Q,
               Permutation l1 l2 -> (l1 = [] <-> l2 = [])) as Hnil.
    { intros l1 l2 P. split; intros ->.
      - now apply Permutation_nil.
      - now apply Permutation_nil, Permutation_sym. }
    split.
    + destruct (Hnil _ _ Hlat) as [N1 N2].
      destruct (samples_of (normalize_df df1) "latency_ms" (JStr s));
        destruct (samples_of (normalize_df df2) "latency_ms" (JStr s));
        cbn; split; intros E; try reflexivity; try discriminate E;
        try (now discriminate N1); now discriminate N2.
    + destruct (Hnil _ _ Hup) as [N1 N2].
      destruct (samples_of (normalize_df df1) "uptime" (JStr s)) as [|u1 l1];
        destruct (samples_of (normalize_df df2) "uptime" (JStr s)) as [|u2 l2];
        cbn [existsb map mean_of option_map];
        try (now discriminate N1); try (now discriminate N2);
        [tauto|].
      destruct (Qgt_bool u1 1 || existsb _ l1);
        destruct (Qgt_bool u2 1 || existsb _ l2);
        cbn [map mean_of option_map]; split; discriminate.
Qed.

End Rows.

Lemma record_of_region_rows_witness :
  serve mixed_table (Some (JObj mixed_payload)) = Ok mixed_out /\
  serve shuffled_table (Some (JObj mixed_payload)) = Ok shuffled_out /\
  dict_get py_key_eqb mixed_out (JStr "ap-south") =
  dict_get py_key_eqb shuffled_out (JStr "ap-south") /\
  exists m1 m2,
    dict_get py_key_eqb mixed_out (JStr "us-east") = Some m1 /\
    dict_get py_key_eqb shuffled_out (JStr "us-east") = Some m2 /\
    p95_latency m1 = p95_latency m2 /\
    breaches m1 = breaches m2.
Proof.
  split; [vm_compute; reflexivity|]. split; [vm_compute; reflexivity|]. split.
  - apply (record_of_region_rows digits_only nan_text opaque_text
             mixed_table shuffled_table mixed_payload mixed_names).
    + vm_compute. reflexivity.
    + vm_compute. reflexivity.
    + reflexivity.
    + simpl. auto.
    + reflexivity.
    + vm_compute. reflexivity.
  - destruct (record_of_region_rows digits_only nan_text opaque_text
                mixed_table shuffled_table mixed_payload mixed_names
                mixed_out shuffled_out "us-east") as (_ & Hperm).
    + vm_compute. reflexivity.
    + vm_compute. reflexivity.
    + reflexivity.
    + simpl. auto.
    + reflexivity.
    + destruct Hperm as (m1 & m2 & G1 & G2 & Hp & Hb & _).
      * vm_compute. apply perm_swap.
      * exists m1, m2. auto.
Defined.
